(** * DeleteSpace: the validated deletion workflow of thisiserico/preferences

    Shallow embedding of the two Go packages named [example] that carry the
    [DeleteSpace] example:

    - code-semantics/tests/example/delete_space.go: the self-contained
      version, with hard-wired [fetchSpaceWithID] and [removeSpaceWithID];
    - code-semantics/test-doubles/example/delete_space.go: the version that
      receives a [Store] interface value.

    Both files declare, with the same text, the constant [defaultSpaceName],
    the five error variables, the structs [resource] and [Space] and the
    three predicates on [Space]; those declarations are embedded once, ahead
    of the two modules that hold what differs. *)

From Stdlib Require Import String List Bool Arith Lia.
From Stdlib Require Import ZArith Permutation.
Import ListNotations.
Open Scope string_scope.
Open Scope list_scope.

(** ** A state monad for code that threads a store or the heap *)

Definition M (St A : Type) : Type := St -> A * St.

Definition ret {St A : Type} (a : A) : M St A := fun s => (a, s).

Definition bind {St A B : Type} (c : M St A) (k : A -> M St B) : M St B :=
  fun s => let (a, s') := c s in k a s'.

Notation "x <- c ;; k" := (bind c (fun x => k))
  (at level 61, c at next level, right associativity).

(** ** Go's [error] values and the package [errors] *)

(** What an [error] interface value holds when it is not nil: a pointer to an
    [errors.errorString] (compared by address, as Go's [==] does), or a
    value of some other dynamic type. *)
Inductive error_value : Type :=
| errorString_ptr (addr : nat)
| other_error (dyn_type : string) (repr : string).

(** The interface type [error]; [None] is Go's nil. *)
Definition error : Type := option error_value.

Definition error_value_eq_dec (a b : error_value) : {a = b} + {a <> b}.
Proof. decide equality; solve [apply Nat.eq_dec | apply string_dec]. Defined.

Definition error_eq_dec (a b : error) : {a = b} + {a <> b}.
Proof. decide equality; apply error_value_eq_dec. Defined.

(** Go's [err1 == err2]. *)
Definition error_eqb (a b : error) : bool :=
  if error_eq_dec a b then true else false.

Module errors.

(** The allocated [errorString] objects, by address: the text of each. *)
Definition heap : Type := list string.

(** [errors.New(text)] is [&errorString{text}]: every call allocates. *)
Definition New (text : string) : M heap error :=
  fun h => (Some (errorString_ptr (List.length h)), h ++ [text]).

End errors.

(** ** Declarations shared by the two packages *)

Definition defaultSpaceName : string := "default".

(** The [var ( ... )] block, initialised in source order. *)
Record package_vars : Type := {
  var_errCannotFetchSpace : error;
  var_errNotAnOwnedSpace : error;
  var_errNonEmptySpace : error;
  var_errUnremovableDefaultSpace : error;
  var_errSpaceCouldNotBeRemoved : error
}.

Definition init_vars : M errors.heap package_vars :=
  e1 <- errors.New "cannot fetch the space" ;;
  e2 <- errors.New "only owned spaces can be removed" ;;
  e3 <- errors.New "only empty spaces can be removed" ;;
  e4 <- errors.New "the default space cannot be removed" ;;
  e5 <- errors.New "the space could not be removed" ;;
  ret {| var_errCannotFetchSpace := e1;
         var_errNotAnOwnedSpace := e2;
         var_errNonEmptySpace := e3;
         var_errUnremovableDefaultSpace := e4;
         var_errSpaceCouldNotBeRemoved := e5 |}.

(** The package's variables after initialisation from the empty heap. *)
Definition vars : package_vars := fst (init_vars []).

Definition errCannotFetchSpace : error := var_errCannotFetchSpace vars.
Definition errNotAnOwnedSpace : error := var_errNotAnOwnedSpace vars.
Definition errNonEmptySpace : error := var_errNonEmptySpace vars.
Definition errUnremovableDefaultSpace : error := var_errUnremovableDefaultSpace vars.
Definition errSpaceCouldNotBeRemoved : error := var_errSpaceCouldNotBeRemoved vars.

(** [type resource struct{}] *)
Inductive resource : Type := mk_resource.

Record Space : Type := mk_Space {
  id : string;
  ownerID : string;
  name : string;
  resources : list resource
}.

(** The assignments [space.resources = r] and [space.name = n]. *)
Definition set_resources (s : Space) (r : list resource) : Space :=
  {| id := id s; ownerID := ownerID s; name := name s; resources := r |}.

Definition set_name (s : Space) (n : string) : Space :=
  {| id := id s; ownerID := ownerID s; name := n; resources := resources s |}.

Definition isOwnedBy (s : Space) (userID : string) : bool :=
  String.eqb (ownerID s) userID.

Definition isEmpty (s : Space) : bool :=
  Nat.eqb (List.length (resources s)) 0.

Definition isTheDefault (s : Space) : bool :=
  String.eqb (name s) defaultSpaceName.

(** ** code-semantics/tests/example: the self-contained version *)

Module Tests.

(** A nil [*Space] is [None]. *)
Definition fetchSpaceWithID (id : string) : option Space :=
  let space := {| id := "known-space";
                  ownerID := "known-owner";
                  name := "a space name";
                  resources := [] |} in
  if String.eqb id "unknown-space" then None
  else if String.eqb id "non-empty-space" then
    Some (set_resources space [mk_resource])
  else if String.eqb id "default-space" then
    Some (set_name space defaultSpaceName)
  else Some space.

Definition removeSpaceWithID (id : string) : error :=
  if String.eqb id "fails-on-remove" then errSpaceCouldNotBeRemoved
  else None.

Definition DeleteSpace (id : string) (whoAmI : string) : error :=
  match fetchSpaceWithID id with
  | None => errCannotFetchSpace
  | Some space =>
    if negb (isOwnedBy space whoAmI) then errNotAnOwnedSpace
    else if negb (isEmpty space) then errNonEmptySpace
    else if isTheDefault space then errUnremovableDefaultSpace
    else removeSpaceWithID id
  end.

End Tests.

(** ** code-semantics/test-doubles/example: the injected version *)

Module TestDoubles.

(** The [Store] interface. An implementation may keep state of any type
    [St]; each method receives the state and returns the new one. *)
Class Store (St : Type) : Type := {
  FetchSpaceWithID : string -> M St (option Space);
  RemoveSpaceWithID : string -> M St error
}.

Definition DeleteSpace {St : Type} (store : Store St)
    (id : string) (whoAmI : string) : M St error :=
  space <- FetchSpaceWithID id ;;
  match space with
  | None => ret errCannotFetchSpace
  | Some space =>
    if negb (isOwnedBy space whoAmI) then ret errNotAnOwnedSpace
    else if negb (isEmpty space) then ret errNonEmptySpace
    else if isTheDefault space then ret errUnremovableDefaultSpace
    else RemoveSpaceWithID id
  end.

(** *** Reading a run *)

(** What the first call to [FetchSpaceWithID key] returns from state [s0],
    and what [RemoveSpaceWithID key] returns when called right after it. *)
Definition fetched {St : Type} (store : Store St) (key : string) (s0 : St)
  : option Space :=
  fst (FetchSpaceWithID key s0).

Definition removal {St : Type} (store : Store St) (key : string) (s0 : St)
  : error :=
  fst (RemoveSpaceWithID key (snd (FetchSpaceWithID key s0))).

(** The three guards that follow the nil check, as one test. *)
Definition passes_guards (space : option Space) (whoAmI : string) : bool :=
  match space with
  | None => false
  | Some sp => isOwnedBy sp whoAmI && isEmpty sp && negb (isTheDefault sp)
  end.

(** *** A recording double

    The generated [StoreDouble] of the test file records the calls it
    receives. [StoreSpy] does the same around any implementation: it
    forwards each call and appends it to a log kept next to the inner
    store's state. *)
Inductive call : Type :=
| call_FetchSpaceWithID (key : string)
| call_RemoveSpaceWithID (key : string).

Definition StoreSpy {St : Type} (inner : Store St) : Store (St * list call) :=
  {| FetchSpaceWithID := fun key '(s, log) =>
       let (r, s') := @FetchSpaceWithID St inner key s in
       (r, (s', log ++ [call_FetchSpaceWithID key]));
     RemoveSpaceWithID := fun key '(s, log) =>
       let (r, s') := @RemoveSpaceWithID St inner key s in
       (r, (s', log ++ [call_RemoveSpaceWithID key])) |}.

(** The calls one [DeleteSpace] makes on the store, in order. *)
Definition calls {St : Type} (store : Store St) (key whoAmI : string) (s0 : St)
  : list call :=
  snd (snd (DeleteSpace (StoreSpy store) key whoAmI (s0, []))).

Fixpoint fetched_ids (log : list call) : list string :=
  match log with
  | [] => []
  | call_FetchSpaceWithID k :: rest => k :: fetched_ids rest
  | call_RemoveSpaceWithID _ :: rest => fetched_ids rest
  end.

Fixpoint removed_ids (log : list call) : list string :=
  match log with
  | [] => []
  | call_FetchSpaceWithID _ :: rest => removed_ids rest
  | call_RemoveSpaceWithID k :: rest => k :: removed_ids rest
  end.

(** *** Stores used as inputs *)

(** The store whose two capabilities are the hard-wired functions of the
    self-contained version; it keeps no state. *)
Definition HardWired : Store unit :=
  {| FetchSpaceWithID := fun key => ret (Tests.fetchSpaceWithID key);
     RemoveSpaceWithID := fun key => ret (Tests.removeSpaceWithID key) |}.

(** A stub configured as the tests configure the double:
    [FetchSpaceWithID(gomock.Any()).Return(space)] and
    [RemoveSpaceWithID(gomock.Any()).Return(err)]. *)
Definition Stub (space : option Space) (err : error) : Store unit :=
  {| FetchSpaceWithID := fun _ => ret space;
     RemoveSpaceWithID := fun _ => ret err |}.

(** An in-memory store that does remove: the state is the list of the
    spaces held, filed under their [id] field. *)
Definition InMemory : Store (list Space) :=
  {| FetchSpaceWithID := fun key spaces =>
       (find (fun sp => String.eqb (id sp) key) spaces, spaces);
     RemoveSpaceWithID := fun key spaces =>
       (None, filter (fun sp => negb (String.eqb (id sp) key)) spaces) |}.

(** The space that [whenDeletingTheSpace] makes the double return. *)
Definition deletable_space : Space :=
  {| id := "known-space"; ownerID := "known-owner";
     name := "not a default space"; resources := [] |}.

(** The spaces of [givenAUserThatDoesNotOwnASpace],
    [givenASpaceThatIsNotEmpty] and [givenTheDefaultSpaceOfAUser]. *)
Definition space_of_another_owner : Space :=
  {| id := "known-space"; ownerID := "unknown-owner";
     name := "not a default space"; resources := [] |}.

Definition space_with_a_resource : Space :=
  {| id := "known-space"; ownerID := "known-owner";
     name := "not a default space"; resources := [mk_resource] |}.

Definition default_space : Space :=
  {| id := "known-space"; ownerID := "known-owner";
     name := "default"; resources := [] |}.

(** A space that fails two guards at once: another owner's, and not
    empty. *)
Definition space_of_another_owner_with_a_resource : Space :=
  {| id := "known-space"; ownerID := "unknown-owner";
     name := "not a default space"; resources := [mk_resource] |}.

End TestDoubles.

(** ** The specification's outcomes *)

Module Spec.

(** The error taxonomy of the specification, and success. *)
Inductive outcome : Type :=
| NotFound
| NotOwned
| NotEmpty
| ProtectedDefault
| RemovalFailed
| Success.

Definition is_precondition_error (o : outcome) : bool :=
  match o with
  | NotFound | NotOwned | NotEmpty | ProtectedDefault => true
  | RemovalFailed | Success => false
  end.

(** The value that stands for each outcome in the code; a failed removal
    is the store's own error. *)
Definition error_of (o : outcome) (removal : error) : error :=
  match o with
  | NotFound => errCannotFetchSpace
  | NotOwned => errNotAnOwnedSpace
  | NotEmpty => errNonEmptySpace
  | ProtectedDefault => errUnremovableDefaultSpace
  | RemovalFailed => removal
  | Success => None
  end.

(** The algorithm of the specification, steps 1 to 5, written from its
    words: [fetched] is what the fetch by id gave, [removal] what the
    storage's remove operation reports when it is invoked. *)
Inductive yields (fetched : option Space) (actingUser : string)
    (removal : error) : outcome -> Prop :=
| step1_not_found :
    fetched = None ->
    yields fetched actingUser removal NotFound
| step2_not_owned sp :
    fetched = Some sp ->
    ownerID sp <> actingUser ->
    yields fetched actingUser removal NotOwned
| step3_not_empty sp :
    fetched = Some sp ->
    ownerID sp = actingUser ->
    resources sp <> [] ->
    yields fetched actingUser removal NotEmpty
| step4_protected_default sp :
    fetched = Some sp ->
    ownerID sp = actingUser ->
    resources sp = [] ->
    name sp = "default" ->
    yields fetched actingUser removal ProtectedDefault
| step5_removal_failed sp :
    fetched = Some sp ->
    ownerID sp = actingUser ->
    resources sp = [] ->
    name sp <> "default" ->
    removal <> None ->
    yields fetched actingUser removal RemovalFailed
| step5_success sp :
    fetched = Some sp ->
    ownerID sp = actingUser ->
    resources sp = [] ->
    name sp <> "default" ->
    removal = None ->
    yields fetched actingUser removal Success.

End Spec.

(** ** Readings of the specification that the code does not follow

    Each is a sentence of the specification stated over the embedding; the
    results below settle them. *)

Module Readings.
Import TestDoubles.

(** "[removeById] is invoked exactly once with [s.id]" for a space that
    passes every precondition. *)
Definition remove_receives_the_space_id : Prop :=
  forall (St : Type) (store : Store St) (key actingUser : string) (s0 : St)
         (sp : Space),
    fetched store key s0 = Some sp ->
    ownerID sp = actingUser ->
    resources sp = [] ->
    name sp <> "default" ->
    removal store key s0 = None ->
    fst (DeleteSpace store key actingUser s0) = None /\
    removed_ids (calls store key actingUser s0) = [id sp].

(** "Exactly one read and, only on full success, exactly one write": no
    call that returns an error invokes the write. *)
Definition write_only_when_DeleteSpace_succeeds : Prop :=
  forall (St : Type) (store : Store St) (key actingUser : string) (s0 : St),
    List.length (fetched_ids (calls store key actingUser s0)) = 1 /\
    (fst (DeleteSpace store key actingUser s0) = None ->
     List.length (removed_ids (calls store key actingUser s0)) = 1) /\
    (fst (DeleteSpace store key actingUser s0) <> None ->
     removed_ids (calls store key actingUser s0) = []).

(** "No error is ever conflated with another": two calls that end in
    different error outcomes never return the same value. *)
Definition error_outcomes_never_share_a_value : Prop :=
  forall (St1 : Type) (store1 : Store St1) (key1 who1 : string) (s1 : St1)
         (St2 : Type) (store2 : Store St2) (key2 who2 : string) (s2 : St2)
         (o1 o2 : Spec.outcome),
    Spec.yields (fetched store1 key1 s1) who1 (removal store1 key1 s1) o1 ->
    Spec.yields (fetched store2 key2 s2) who2 (removal store2 key2 s2) o2 ->
    o1 <> Spec.Success -> o2 <> Spec.Success -> o1 <> o2 ->
    fst (DeleteSpace store1 key1 who1 s1)
    <> fst (DeleteSpace store2 key2 who2 s2).

End Readings.

(** ** Messages, and running code that uses both the heap and a store *)

(** The heap after the package's variables are initialised. *)
Definition package_heap : errors.heap := snd (init_vars []).

(** [err.Error()]: the text of an [errorString], read through its pointer. *)
Definition Error (h : errors.heap) (e : error) : option string :=
  match e with
  | None => None
  | Some (errorString_ptr a) => nth_error h a
  | Some (other_error _ repr) => Some repr
  end.

Definition on_heap {St A : Type} (c : M errors.heap A)
  : M (errors.heap * St) A :=
  fun '(h, s) => let (a, h') := c h in (a, (h', s)).

Definition on_store {St A : Type} (c : M St A) : M (errors.heap * St) A :=
  fun '(h, s) => let (a, s') := c s in (a, (h, s')).

(** ** code-semantics/guard-clauses: the nested version the chapter opens with

    The chapter leaves [fetchSpaceWithID] and [removeSpaceWithID]
    undeclared; they are taken from a [Store]. Each error is made on the
    spot by [errors.New]. *)

Module GuardClauses.
Import TestDoubles.

(** The test [space != nil && space.ownerID == whoAmI] fails for a nil
    space, which then takes the outer [else]. *)
Definition DeleteSpace {St : Type} (store : Store St)
    (id : string) (whoAmI : string) : M (errors.heap * St) error :=
  space <- on_store (FetchSpaceWithID id) ;;
  match space with
  | Some space =>
    if String.eqb (ownerID space) whoAmI then
      if Nat.eqb (List.length (resources space)) 0 then
        if negb (String.eqb (name space) "default") then
          on_store (RemoveSpaceWithID id)
        else on_heap (errors.New "the default space cannot be removed")
      else on_heap (errors.New "only empty spaces can be removed")
    else on_heap (errors.New "only owned spaces can be removed")
  | None => on_heap (errors.New "only owned spaces can be removed")
  end.

End GuardClauses.

(** ** code-semantics/tests/example: the test file of the self-contained version *)

Module TestsHarness.

(** [testDeleteSpace], without the embedded [*testing.T]. *)
Record testDeleteSpace : Type := {
  spaceID : string;
  ownerID : string;
  returnedErr : error
}.

Definition setupTestDeleteSpace : testDeleteSpace :=
  {| spaceID := "known-space"; ownerID := "known-owner";
     returnedErr := None |}.

Definition set_spaceID (t : testDeleteSpace) (v : string) : testDeleteSpace :=
  {| spaceID := v; ownerID := ownerID t; returnedErr := returnedErr t |}.

Definition set_ownerID (t : testDeleteSpace) (v : string) : testDeleteSpace :=
  {| spaceID := spaceID t; ownerID := v; returnedErr := returnedErr t |}.

Definition givenASpaceThatCannotBeFetched (t : testDeleteSpace) :=
  set_spaceID t "unknown-space".

Definition givenAUserThatDoesNotOwnASpace (t : testDeleteSpace) :=
  set_ownerID t "unknown-owner".

Definition givenASpaceThatIsNotEmpty (t : testDeleteSpace) :=
  set_spaceID t "non-empty-space".

Definition givenTheDefaultSpaceOfAUser (t : testDeleteSpace) :=
  set_spaceID t "default-space".

Definition givenASpaceThatCannotBeRemoved (t : testDeleteSpace) :=
  set_spaceID t "fails-on-remove".

Definition whenDeletingTheSpace (t : testDeleteSpace) : testDeleteSpace :=
  {| spaceID := spaceID t; ownerID := ownerID t;
     returnedErr := Tests.DeleteSpace (spaceID t) (ownerID t) |}.

(** The [then...] helpers call [t.Fatalf] when the comparison fails; each
    is the comparison: [true] when the test goes on. *)
Definition thenACannotFetchSpaceErrorIsReturned (t : testDeleteSpace) : bool :=
  error_eqb (returnedErr t) errCannotFetchSpace.

Definition thenANotAnOwnedSpaceErrorIsReturned (t : testDeleteSpace) : bool :=
  error_eqb (returnedErr t) errNotAnOwnedSpace.

Definition thenANonEmptySpaceErrorIsReturned (t : testDeleteSpace) : bool :=
  error_eqb (returnedErr t) errNonEmptySpace.

Definition thenAnUnremovableDefaultSpaceErrorIsReturned (t : testDeleteSpace)
  : bool :=
  error_eqb (returnedErr t) errUnremovableDefaultSpace.

Definition thenASpaceCouldNotBeRemovedErrorIsReturned (t : testDeleteSpace)
  : bool :=
  error_eqb (returnedErr t) errSpaceCouldNotBeRemoved.

Definition thenNoErrorsAreReturned (t : testDeleteSpace) : bool :=
  error_eqb (returnedErr t) None.

(** The six checks, in the order of the subtests. *)
Definition then_checks (t : testDeleteSpace) : list bool :=
  [thenACannotFetchSpaceErrorIsReturned t;
   thenANotAnOwnedSpaceErrorIsReturned t;
   thenANonEmptySpaceErrorIsReturned t;
   thenAnUnremovableDefaultSpaceErrorIsReturned t;
   thenASpaceCouldNotBeRemovedErrorIsReturned t;
   thenNoErrorsAreReturned t].

(** The six subtests of [TestDeleteSpace]. *)
Definition TestDeleteSpace : list bool :=
  [thenACannotFetchSpaceErrorIsReturned
     (whenDeletingTheSpace
        (givenASpaceThatCannotBeFetched setupTestDeleteSpace));
   thenANotAnOwnedSpaceErrorIsReturned
     (whenDeletingTheSpace
        (givenAUserThatDoesNotOwnASpace setupTestDeleteSpace));
   thenANonEmptySpaceErrorIsReturned
     (whenDeletingTheSpace (givenASpaceThatIsNotEmpty setupTestDeleteSpace));
   thenAnUnremovableDefaultSpaceErrorIsReturned
     (whenDeletingTheSpace (givenTheDefaultSpaceOfAUser setupTestDeleteSpace));
   thenASpaceCouldNotBeRemovedErrorIsReturned
     (whenDeletingTheSpace
        (givenASpaceThatCannotBeRemoved setupTestDeleteSpace));
   thenNoErrorsAreReturned (whenDeletingTheSpace setupTestDeleteSpace)].

End TestsHarness.

(** ** code-semantics/functional-options/example: three ways to configure *)

(** [time.Duration], an [int64] count of nanoseconds; the code only stores
    it. *)
Definition Duration : Type := Z.

Module FirstStyle.

Record FirstAPI : Type := {
  clientName : string;
  aPIKey : string;
  requestTimeout : Duration;
  dumpDebugLogs : bool;
  isDryRun : bool
}.

Record FirstAPIConfig : Type := {
  ClientName : string;
  APIKey : string;
  RequestTimeout : Duration;
  DumpDebugLogs : bool;
  IsDryRun : bool
}.

Definition NewFirstAPI (config : FirstAPIConfig) : FirstAPI :=
  {| clientName := ClientName config;
     aPIKey := APIKey config;
     requestTimeout := RequestTimeout config;
     dumpDebugLogs := DumpDebugLogs config;
     isDryRun := IsDryRun config |}.

End FirstStyle.

Module SecondStyle.

Record SecondAPI : Type := {
  clientName : string;
  aPIKey : string;
  requestTimeout : Duration;
  dumpDebugLogs : bool;
  isDryRun : bool
}.

(** The fields left out of the literal take Go's zero values. *)
Definition NewSecondAPI (clientName aPIKey : string) : SecondAPI :=
  {| clientName := clientName; aPIKey := aPIKey;
     requestTimeout := 0%Z; dumpDebugLogs := false; isDryRun := false |}.

(** The method mutates the receiver [*SecondAPI]. *)
Definition WithRequestTimeout (dur : Duration) (api : SecondAPI) : SecondAPI :=
  {| clientName := clientName api; aPIKey := aPIKey api;
     requestTimeout := dur;
     dumpDebugLogs := dumpDebugLogs api; isDryRun := isDryRun api |}.

End SecondStyle.

Module ThirdStyle.

Record ThirdAPI : Type := {
  clientName : string;
  aPIKey : string;
  requestTimeout : Duration;
  dumpDebugLogs : bool;
  isDryRun : bool
}.

(** [Option] is a function on a pointer to [ThirdAPI]: what the call does
    to the struct behind the pointer. *)
Definition Option : Type := ThirdAPI -> ThirdAPI.

Definition NewThirdAPI (clientName aPIKey : string) (opts : list Option)
  : ThirdAPI :=
  let api := {| clientName := clientName; aPIKey := aPIKey;
                requestTimeout := 0%Z; dumpDebugLogs := false;
                isDryRun := false |} in
  fold_left (fun api option => option api) opts api.

Definition WithRequestTimeout (dur : Duration) : Option :=
  fun api =>
    {| clientName := clientName api; aPIKey := aPIKey api;
       requestTimeout := dur;
       dumpDebugLogs := dumpDebugLogs api; isDryRun := isDryRun api |}.

Definition WithDebugLogsEnabled : Option :=
  fun api =>
    {| clientName := clientName api; aPIKey := aPIKey api;
       requestTimeout := requestTimeout api;
       dumpDebugLogs := true; isDryRun := isDryRun api |}.

Definition RunningOnDryRunMode : Option :=
  fun api =>
    {| clientName := clientName api; aPIKey := aPIKey api;
       requestTimeout := requestTimeout api;
       dumpDebugLogs := dumpDebugLogs api; isDryRun := true |}.

(** The options a caller can write: a call to one of the three
    constructors. *)
Inductive option_call : Type :=
| call_WithRequestTimeout (dur : Duration)
| call_WithDebugLogsEnabled
| call_RunningOnDryRunMode.

Definition eval_option (c : option_call) : Option :=
  match c with
  | call_WithRequestTimeout dur => WithRequestTimeout dur
  | call_WithDebugLogsEnabled => WithDebugLogsEnabled
  | call_RunningOnDryRunMode => RunningOnDryRunMode
  end.

(** The duration of the last [WithRequestTimeout] of a list, if any. *)
Fixpoint last_timeout (cs : list option_call) : option Duration :=
  match cs with
  | [] => None
  | c :: rest =>
    match last_timeout rest with
    | Some d => Some d
    | None => match c with
              | call_WithRequestTimeout d => Some d
              | _ => None
              end
    end
  end.

Definition is_debug (c : option_call) : bool :=
  match c with call_WithDebugLogsEnabled => true | _ => false end.

Definition is_dry_run (c : option_call) : bool :=
  match c with call_RunningOnDryRunMode => true | _ => false end.

Definition is_timeout (c : option_call) : bool :=
  match c with call_WithRequestTimeout _ => true | _ => false end.

End ThirdStyle.

(** ** clean-architectures/hexagonal/example/player *)

Module domain.

Definition VideoID : Type := string.

Definition NoVideo : VideoID := "".

(** The error of an empty id is made by [errors.New] at each call. *)
Definition VideoIDFrom (raw : string) : M errors.heap (VideoID * error) :=
  if String.eqb raw "" then
    e <- errors.New "invalid video ID" ;;
    ret (NoVideo, e)
  else ret (raw, None).

(** The [Store] interface of the domain, over a state of any type. *)
Class Store (St : Type) : Type := {
  IsPlayNextEnabled : M St bool;
  NextAfter : VideoID -> M St VideoID
}.

End domain.

Module application.
Import domain.

(** [PlayNextUseCase(store)] is the closure [PlayNext]; applied to
    [currentlyPlaying] it runs on the heap and on the store. *)
Definition PlayNextUseCase {St : Type} (store : Store St)
    (currentlyPlaying : string) : M (errors.heap * St) (VideoID * error) :=
  r <- on_heap (VideoIDFrom currentlyPlaying) ;;
  let (videoID, err) := r in
  match err with
  | Some _ => ret (videoID, err)
  | None =>
    enabled <- on_store IsPlayNextEnabled ;;
    if negb enabled then ret (NoVideo, None)
    else
      next <- on_store (NextAfter videoID) ;;
      ret (next, None)
  end.

(** A recording double for the domain's store. *)
Inductive call : Type :=
| call_IsPlayNextEnabled
| call_NextAfter (v : VideoID).

Definition StoreSpy {St : Type} (inner : Store St) : Store (St * list call) :=
  {| IsPlayNextEnabled := fun '(s, log) =>
       let (r, s') := @IsPlayNextEnabled St inner s in
       (r, (s', log ++ [call_IsPlayNextEnabled]));
     NextAfter := fun v '(s, log) =>
       let (r, s') := @NextAfter St inner v s in
       (r, (s', log ++ [call_NextAfter v])) |}.

(** The calls one [PlayNext] makes on the store, in order. *)
Definition calls {St : Type} (store : Store St) (currentlyPlaying : string)
    (h : errors.heap) (s0 : St) : list call :=
  snd (snd (snd (PlayNextUseCase (StoreSpy store) currentlyPlaying
                                 (h, (s0, []))))).

(** A store with a fixed setting that answers every [NextAfter] with a
    fixed video. *)
Definition FixedStore (enabled : bool) (next : VideoID) : Store unit :=
  {| IsPlayNextEnabled := ret enabled;
     NextAfter := fun _ => ret next |}.

End application.

(** ** The builder and mother patterns of the chapter that follows the tests *)

Definition set_id (s : Space) (i : string) : Space :=
  {| id := i; ownerID := ownerID s; name := name s;
     resources := resources s |}.

Module BuilderMother.

(** [SpaceBuilder]: the pointers and the slice may be nil ([None]). *)
Record SpaceBuilder : Type := {
  b_id : option string;
  b_ownerID : option string;
  b_name : option string;
  b_resources : option (list resource)
}.

Definition WithID (b : SpaceBuilder) (i : string) : SpaceBuilder :=
  {| b_id := Some i; b_ownerID := b_ownerID b; b_name := b_name b;
     b_resources := b_resources b |}.

Definition WithResources (b : SpaceBuilder) (list : option (list resource))
  : SpaceBuilder :=
  {| b_id := b_id b; b_ownerID := b_ownerID b; b_name := b_name b;
     b_resources := list |}.

Definition Build (b : SpaceBuilder) : Space :=
  let space := {| id := "some-id"; ownerID := "some-owner-id";
                  name := "a space name"; resources := [] |} in
  let space := match b_id b with
               | Some i => set_id space i
               | None => space
               end in
  let space := match b_resources b with
               | Some r => set_resources space r
               | None => space
               end in
  space.

Definition BuildDefaultSpace : Space :=
  {| id := "some-id"; ownerID := "some-owner-id"; name := "default";
     resources := [] |}.

Definition BuildNonEmptySpace : Space :=
  {| id := "some-id"; ownerID := "some-owner-id"; name := "a space name";
     resources := [mk_resource] |}.

Definition BuilderOption : Type := Space -> Space.

Definition UsingID (i : string) : BuilderOption := fun s => set_id s i.

Definition BeingDefault : BuilderOption := fun s => set_name s "default".

Definition NonEmpty : BuilderOption := fun s => set_resources s [mk_resource].

Definition FilledWith (list : list resource) : BuilderOption :=
  fun s => set_resources s list.

Definition rootSpace : Space :=
  {| id := "some-id"; ownerID := "some-owner-id"; name := "a space name";
     resources := [mk_resource] |}.

Definition tweak (s : Space) (opts : list BuilderOption) : Space :=
  fold_left (fun s option => option s) opts s.

Definition SpaceOwnedBy (userID : string) (opts : list BuilderOption) : Space :=
  tweak rootSpace opts.

(** The options a test can write: a call to one of the four constructors. *)
Inductive option_call : Type :=
| call_UsingID (i : string)
| call_BeingDefault
| call_NonEmpty
| call_FilledWith (list : list resource).

Definition eval_option (c : option_call) : BuilderOption :=
  match c with
  | call_UsingID i => UsingID i
  | call_BeingDefault => BeingDefault
  | call_NonEmpty => NonEmpty
  | call_FilledWith l => FilledWith l
  end.

End BuilderMother.

(** * Results *)

Import TestDoubles.

(** ** The predicates on [Space] *)

Lemma isOwnedBy_true (sp : Space) (userID : string) :
  isOwnedBy sp userID = true <-> ownerID sp = userID.
Proof. unfold isOwnedBy. apply String.eqb_eq. Qed.

Lemma isOwnedBy_false (sp : Space) (userID : string) :
  isOwnedBy sp userID = false <-> ownerID sp <> userID.
Proof. unfold isOwnedBy. apply String.eqb_neq. Qed.

Lemma isEmpty_true (sp : Space) : isEmpty sp = true <-> resources sp = [].
Proof.
  unfold isEmpty. rewrite Nat.eqb_eq. apply length_zero_iff_nil.
Qed.

Lemma isEmpty_false (sp : Space) : isEmpty sp = false <-> resources sp <> [].
Proof.
  rewrite <- isEmpty_true. destruct (isEmpty sp); split; congruence.
Qed.

Lemma isTheDefault_true (sp : Space) :
  isTheDefault sp = true <-> name sp = "default".
Proof. unfold isTheDefault, defaultSpaceName. apply String.eqb_eq. Qed.

Lemma isTheDefault_false (sp : Space) :
  isTheDefault sp = false <-> name sp <> "default".
Proof. unfold isTheDefault, defaultSpaceName. apply String.eqb_neq. Qed.

Lemma passes_guards_true (space : option Space) (whoAmI : string) :
  passes_guards space whoAmI = true <->
  exists sp, space = Some sp /\ ownerID sp = whoAmI /\ resources sp = [] /\
             name sp <> "default".
Proof.
  destruct space as [sp|]; simpl.
  - rewrite !andb_true_iff, negb_true_iff,
      isOwnedBy_true, isEmpty_true, isTheDefault_false.
    split.
    + intros [[Ho He] Hd]. exists sp. auto.
    + intros [sp' [E [Ho [He Hd]]]]. injection E as <-. auto.
  - split; [discriminate | intros [sp [E _]]; discriminate].
Qed.

(** ** The error variables *)

(** Whatever the heap holds when the package is initialised, the five
    calls to [errors.New] give five different non-nil values. *)
Lemma init_vars_fresh (h : errors.heap) :
  let v := fst (init_vars h) in
  NoDup [None; var_errCannotFetchSpace v; var_errNotAnOwnedSpace v;
         var_errNonEmptySpace v; var_errUnremovableDefaultSpace v;
         var_errSpaceCouldNotBeRemoved v].
Proof.
  cbv [init_vars bind ret errors.New fst var_errCannotFetchSpace
       var_errNotAnOwnedSpace var_errNonEmptySpace
       var_errUnremovableDefaultSpace var_errSpaceCouldNotBeRemoved].
  rewrite !length_app. cbn [List.length].
  repeat constructor; cbn [In]; intro H;
    repeat (destruct H as [H|H]; [ first [discriminate H | injection H; lia] | ]);
    exact H.
Qed.

Lemma error_vars_NoDup :
  NoDup [None; errCannotFetchSpace; errNotAnOwnedSpace; errNonEmptySpace;
         errUnremovableDefaultSpace; errSpaceCouldNotBeRemoved].
Proof. exact (init_vars_fresh []). Qed.

Lemma errCannotFetchSpace_not_nil : errCannotFetchSpace <> None.
Proof. discriminate. Qed.

Lemma errNotAnOwnedSpace_not_nil : errNotAnOwnedSpace <> None.
Proof. discriminate. Qed.

Lemma errNonEmptySpace_not_nil : errNonEmptySpace <> None.
Proof. discriminate. Qed.

Lemma errUnremovableDefaultSpace_not_nil : errUnremovableDefaultSpace <> None.
Proof. discriminate. Qed.

Lemma error_eqb_eq (a b : error) : error_eqb a b = true <-> a = b.
Proof.
  unfold error_eqb. destruct (error_eq_dec a b); split; congruence.
Qed.

(** ** One run of [DeleteSpace], guard by guard *)

Section Run.
Context {St : Type} (store : Store St).
Variables (key whoAmI : string) (s0 : St).

(** The value returned follows the chain of guards of the source. *)
Lemma DeleteSpace_returns :
  fst (DeleteSpace store key whoAmI s0) =
  match fetched store key s0 with
  | None => errCannotFetchSpace
  | Some sp =>
    if negb (isOwnedBy sp whoAmI) then errNotAnOwnedSpace
    else if negb (isEmpty sp) then errNonEmptySpace
    else if isTheDefault sp then errUnremovableDefaultSpace
    else removal store key s0
  end.
Proof.
  unfold DeleteSpace, bind, ret, fetched, removal.
  destruct (FetchSpaceWithID key s0) as [[sp|] s1]; cbn [fst snd]; [|reflexivity].
  destruct (isOwnedBy sp whoAmI), (isEmpty sp), (isTheDefault sp);
    reflexivity.
Qed.

(** The recording double changes neither the value returned nor the
    inner store's state, and logs the fetch, then the removal when the
    guards let the call through. *)
Lemma DeleteSpace_on_spy (log : list call) :
  DeleteSpace (StoreSpy store) key whoAmI (s0, log) =
  (fst (DeleteSpace store key whoAmI s0),
   (snd (DeleteSpace store key whoAmI s0),
    log ++ call_FetchSpaceWithID key ::
      (if passes_guards (fetched store key s0) whoAmI
       then [call_RemoveSpaceWithID key] else []))).
Proof.
  unfold DeleteSpace, bind, ret, fetched, passes_guards. cbn.
  destruct (FetchSpaceWithID key s0) as [[sp|] s1]; cbn; [|reflexivity].
  destruct (isOwnedBy sp whoAmI), (isEmpty sp), (isTheDefault sp); cbn;
    try reflexivity;
    destruct (RemoveSpaceWithID key s1) as [e s2]; cbn;
    rewrite <- app_assoc; reflexivity.
Qed.

Lemma calls_eq :
  calls store key whoAmI s0 =
  call_FetchSpaceWithID key ::
    (if passes_guards (fetched store key s0) whoAmI
     then [call_RemoveSpaceWithID key] else []).
Proof. unfold calls. rewrite DeleteSpace_on_spy. reflexivity. Qed.

Lemma fetched_ids_calls : fetched_ids (calls store key whoAmI s0) = [key].
Proof.
  rewrite calls_eq.
  destruct (passes_guards (fetched store key s0) whoAmI); reflexivity.
Qed.

Lemma removed_ids_calls :
  removed_ids (calls store key whoAmI s0) =
  if passes_guards (fetched store key s0) whoAmI then [key] else [].
Proof.
  rewrite calls_eq.
  destruct (passes_guards (fetched store key s0) whoAmI); reflexivity.
Qed.

(** When the guards let the call through, the value returned is the
    removal's. *)
Lemma DeleteSpace_returns_removal :
  passes_guards (fetched store key s0) whoAmI = true ->
  fst (DeleteSpace store key whoAmI s0) = removal store key s0.
Proof.
  rewrite DeleteSpace_returns. unfold passes_guards.
  destruct (fetched store key s0) as [sp|]; [|discriminate].
  destruct (isOwnedBy sp whoAmI), (isEmpty sp), (isTheDefault sp);
    cbn; congruence.
Qed.

(** When a guard stops the call, an error is returned. *)
Lemma DeleteSpace_stopped_not_nil :
  passes_guards (fetched store key s0) whoAmI = false ->
  fst (DeleteSpace store key whoAmI s0) <> None.
Proof.
  rewrite DeleteSpace_returns. unfold passes_guards.
  destruct (fetched store key s0) as [sp|]; [|discriminate].
  destruct (isOwnedBy sp whoAmI), (isEmpty sp), (isTheDefault sp);
    cbn; discriminate.
Qed.

End Run.

(** ** The self-contained version against the hard-wired store *)

Lemma HardWired_fetched (key : string) :
  fetched HardWired key tt = Tests.fetchSpaceWithID key.
Proof. reflexivity. Qed.

Lemma HardWired_removal (key : string) :
  removal HardWired key tt = Tests.removeSpaceWithID key.
Proof. reflexivity. Qed.

Lemma Tests_DeleteSpace_on_HardWired (key whoAmI : string) :
  Tests.DeleteSpace key whoAmI = fst (DeleteSpace HardWired key whoAmI tt).
Proof.
  rewrite DeleteSpace_returns, HardWired_fetched, HardWired_removal.
  reflexivity.
Qed.

(** ** The specification's algorithm: one outcome, and the code's value *)

Lemma yields_total (f : option Space) (actingUser : string) (r : error) :
  exists o, Spec.yields f actingUser r o.
Proof.
  destruct f as [sp|].
  - destruct (string_dec (ownerID sp) actingUser) as [Ho|Ho].
    + destruct (resources sp) as [|x rs] eqn:He.
      * destruct (string_dec (name sp) "default") as [Hd|Hd].
        -- exists Spec.ProtectedDefault.
           now apply Spec.step4_protected_default with sp.
        -- destruct r as [cause|] eqn:Hr.
           ++ exists Spec.RemovalFailed.
              now apply Spec.step5_removal_failed with sp.
           ++ exists Spec.Success.
              now apply Spec.step5_success with sp.
      * exists Spec.NotEmpty.
        apply Spec.step3_not_empty with sp; [reflexivity | assumption |].
        rewrite He. discriminate.
    + exists Spec.NotOwned. now apply Spec.step2_not_owned with sp.
  - exists Spec.NotFound. now apply Spec.step1_not_found.
Qed.

Lemma yields_functional (f : option Space) (actingUser : string) (r : error)
    (o1 o2 : Spec.outcome) :
  Spec.yields f actingUser r o1 -> Spec.yields f actingUser r o2 -> o1 = o2.
Proof.
  intros H1 H2.
  destruct H1; destruct H2; try reflexivity;
    repeat match goal with
           | E1 : f = Some ?a, E2 : f = Some ?b |- _ =>
             assert (a = b) by congruence; subst b; clear E2
           end;
    congruence.
Qed.

Section Outcome.
Context {St : Type} (store : Store St).
Variables (key whoAmI : string) (s0 : St).

(** The code returns the value of the outcome the algorithm yields. *)
Lemma yields_returns (o : Spec.outcome) :
  Spec.yields (fetched store key s0) whoAmI (removal store key s0) o ->
  fst (DeleteSpace store key whoAmI s0) =
  Spec.error_of o (removal store key s0).
Proof.
  intros H. rewrite DeleteSpace_returns.
  destruct H as [E | sp E Ho | sp E Ho He | sp E Ho He Hd
                | sp E Ho He Hd Hr | sp E Ho He Hd Hr];
    rewrite E; cbn [Spec.error_of]; try reflexivity.
  - apply isOwnedBy_false in Ho. rewrite Ho. reflexivity.
  - apply isOwnedBy_true in Ho. apply isEmpty_false in He.
    rewrite Ho, He. reflexivity.
  - apply isOwnedBy_true in Ho. apply isEmpty_true in He.
    apply isTheDefault_true in Hd. rewrite Ho, He, Hd. reflexivity.
  - apply isOwnedBy_true in Ho. apply isEmpty_true in He.
    apply isTheDefault_false in Hd. rewrite Ho, He, Hd. reflexivity.
  - apply isOwnedBy_true in Ho. apply isEmpty_true in He.
    apply isTheDefault_false in Hd. rewrite Ho, He, Hd. exact Hr.
Qed.

(** The removal is reached exactly on the last two outcomes. *)
Lemma yields_passes_guards (o : Spec.outcome) :
  Spec.yields (fetched store key s0) whoAmI (removal store key s0) o ->
  passes_guards (fetched store key s0) whoAmI =
  match o with
  | Spec.RemovalFailed | Spec.Success => true
  | _ => false
  end.
Proof.
  intros H.
  destruct H as [E | sp E Ho | sp E Ho He | sp E Ho He Hd
                | sp E Ho He Hd Hr | sp E Ho He Hd Hr];
    rewrite E; cbn [passes_guards]; try reflexivity.
  - apply isOwnedBy_false in Ho. rewrite Ho. reflexivity.
  - apply isEmpty_false in He. rewrite He.
    destruct (isOwnedBy sp whoAmI); reflexivity.
  - apply isTheDefault_true in Hd. rewrite Hd. apply andb_false_r.
  - apply isOwnedBy_true in Ho. apply isEmpty_true in He.
    apply isTheDefault_false in Hd. rewrite Ho, He, Hd. reflexivity.
  - apply isOwnedBy_true in Ho. apply isEmpty_true in He.
    apply isTheDefault_false in Hd. rewrite Ho, He, Hd. reflexivity.
Qed.

End Outcome.

Lemma Tests_yields_returns (key whoAmI : string) (o : Spec.outcome) :
  Spec.yields (Tests.fetchSpaceWithID key) whoAmI
              (Tests.removeSpaceWithID key) o ->
  Tests.DeleteSpace key whoAmI =
  Spec.error_of o (Tests.removeSpaceWithID key).
Proof.
  intros H. rewrite Tests_DeleteSpace_on_HardWired.
  rewrite <- HardWired_removal. apply yields_returns.
  rewrite HardWired_fetched, HardWired_removal. exact H.
Qed.

(** The value of a precondition outcome does not depend on the store. *)
Lemma error_of_precondition (o : Spec.outcome) (r1 r2 : error) :
  Spec.is_precondition_error o = true ->
  Spec.error_of o r1 = Spec.error_of o r2.
Proof. destruct o; cbn; congruence. Qed.

Lemma error_of_injective_on_preconditions (o1 o2 : Spec.outcome) (r1 r2 : error) :
  Spec.is_precondition_error o1 = true ->
  Spec.is_precondition_error o2 = true ->
  Spec.error_of o1 r1 = Spec.error_of o2 r2 -> o1 = o2.
Proof. destruct o1, o2; cbn; congruence. Qed.

(** ** The six scenarios of the test files *)

Example scenarios_on_the_double :
  fst (DeleteSpace (Stub None None) "unknown-space" "known-owner" tt)
  = errCannotFetchSpace /\
  fst (DeleteSpace (Stub (Some space_of_another_owner) None)
                   "known-space" "known-owner" tt)
  = errNotAnOwnedSpace /\
  fst (DeleteSpace (Stub (Some space_with_a_resource) None)
                   "known-space" "known-owner" tt)
  = errNonEmptySpace /\
  fst (DeleteSpace (Stub (Some default_space) None)
                   "known-space" "known-owner" tt)
  = errUnremovableDefaultSpace /\
  fst (DeleteSpace (Stub (Some deletable_space) errSpaceCouldNotBeRemoved)
                   "known-space" "known-owner" tt)
  = errSpaceCouldNotBeRemoved /\
  fst (DeleteSpace (Stub (Some deletable_space) None)
                   "known-space" "known-owner" tt)
  = None.
Proof. repeat split. Qed.

Example scenarios_self_contained :
  Tests.DeleteSpace "unknown-space" "known-owner" = errCannotFetchSpace /\
  Tests.DeleteSpace "known-space" "unknown-owner" = errNotAnOwnedSpace /\
  Tests.DeleteSpace "non-empty-space" "known-owner" = errNonEmptySpace /\
  Tests.DeleteSpace "default-space" "known-owner"
  = errUnremovableDefaultSpace /\
  Tests.DeleteSpace "fails-on-remove" "known-owner"
  = errSpaceCouldNotBeRemoved /\
  Tests.DeleteSpace "known-space" "known-owner" = None.
Proof. repeat split. Qed.

(** ** The order of the guards *)

(** C1. For every store, id and acting user, [DeleteSpace] evaluates its
    guards in the order fetch-absence, ownership, emptiness, default name,
    and stops at the first that fails: the call has exactly one of the six
    outcomes of the specification's algorithm (five errors, or success) and
    returns that outcome's value, [errCannotFetchSpace],
    [errNotAnOwnedSpace], [errNonEmptySpace], [errUnremovableDefaultSpace]
    or what the remove operation returns. A space that is both not owned
    and not empty gives [errNotAnOwnedSpace]. The self-contained version
    follows the same chain over [fetchSpaceWithID] and
    [removeSpaceWithID]. *)
Theorem DeleteSpace_guard_order :
  forall (St : Type) (store : Store St) (key actingUser : string) (s0 : St),
    (exists o,
        Spec.yields (fetched store key s0) actingUser (removal store key s0) o /\
        fst (DeleteSpace store key actingUser s0)
        = Spec.error_of o (removal store key s0) /\
        forall o',
          Spec.yields (fetched store key s0) actingUser
                      (removal store key s0) o' -> o' = o) /\
    (forall sp,
        fetched store key s0 = Some sp ->
        ownerID sp <> actingUser ->
        resources sp <> [] ->
        fst (DeleteSpace store key actingUser s0) = errNotAnOwnedSpace) /\
    (exists o,
        Spec.yields (Tests.fetchSpaceWithID key) actingUser
                    (Tests.removeSpaceWithID key) o /\
        Tests.DeleteSpace key actingUser
        = Spec.error_of o (Tests.removeSpaceWithID key) /\
        forall o',
          Spec.yields (Tests.fetchSpaceWithID key) actingUser
                      (Tests.removeSpaceWithID key) o' -> o' = o).
Proof.
  intros St store key actingUser s0. repeat split.
  - destruct (yields_total (fetched store key s0) actingUser
                           (removal store key s0)) as [o Ho].
    exists o. repeat split.
    + exact Ho.
    + now apply yields_returns.
    + intros o' Ho'. now apply yields_functional with (1 := Ho').
  - intros sp E Ho _.
    apply (yields_returns store key actingUser s0 Spec.NotOwned).
    now apply Spec.step2_not_owned with sp.
  - destruct (yields_total (Tests.fetchSpaceWithID key) actingUser
                           (Tests.removeSpaceWithID key)) as [o Ho].
    exists o. repeat split.
    + exact Ho.
    + now apply Tests_yields_returns.
    + intros o' Ho'. now apply yields_functional with (1 := Ho').
Qed.

Lemma DeleteSpace_guard_order_witness :
  fetched (Stub (Some space_of_another_owner_with_a_resource) None)
          "known-space" tt
  = Some space_of_another_owner_with_a_resource /\
  ownerID space_of_another_owner_with_a_resource <> "known-owner" /\
  resources space_of_another_owner_with_a_resource <> [] /\
  fst (DeleteSpace (Stub (Some space_of_another_owner_with_a_resource) None)
                   "known-space" "known-owner" tt)
  = errNotAnOwnedSpace.
Proof.
  assert (E : fetched (Stub (Some space_of_another_owner_with_a_resource) None)
                      "known-space" tt
              = Some space_of_another_owner_with_a_resource)
    by reflexivity.
  assert (Ho : ownerID space_of_another_owner_with_a_resource <> "known-owner")
    by (simpl; discriminate).
  assert (He : resources space_of_another_owner_with_a_resource <> [])
    by (simpl; discriminate).
  split; [exact E | split; [exact Ho | split; [exact He |]]].
  exact (proj1 (proj2 (DeleteSpace_guard_order unit
           (Stub (Some space_of_another_owner_with_a_resource) None)
           "known-space" "known-owner" tt))
           space_of_another_owner_with_a_resource E Ho He).
Defined.

(** ** The argument of the removal *)

(** C2, as amended. For every store and every space [sp] that the store
    returns for the lookup key, owned by the acting user, empty and not
    named "default": when the store's removal succeeds, [DeleteSpace]
    returns nil, and [RemoveSpaceWithID] is invoked exactly once, with the
    lookup key; that is [sp]'s own id when the store files the space under
    its id. *)
Theorem DeleteSpace_removes_the_lookup_key :
  forall (St : Type) (store : Store St) (key actingUser : string) (s0 : St)
         (sp : Space),
    fetched store key s0 = Some sp ->
    ownerID sp = actingUser ->
    resources sp = [] ->
    name sp <> "default" ->
    removal store key s0 = None ->
    fst (DeleteSpace store key actingUser s0) = None /\
    removed_ids (calls store key actingUser s0) = [key] /\
    (id sp = key ->
     removed_ids (calls store key actingUser s0) = [id sp]).
Proof.
  intros St store key actingUser s0 sp E Ho He Hd Hr.
  assert (P : passes_guards (fetched store key s0) actingUser = true).
  { apply passes_guards_true. exists sp. auto. }
  repeat split.
  - rewrite DeleteSpace_returns_removal; assumption.
  - rewrite removed_ids_calls, P. reflexivity.
  - intros ->. rewrite removed_ids_calls, P. reflexivity.
Qed.

Lemma DeleteSpace_removes_the_lookup_key_witness :
  fetched (Stub (Some deletable_space) None) "known-space" tt
  = Some deletable_space /\
  ownerID deletable_space = "known-owner" /\
  resources deletable_space = [] /\
  name deletable_space <> "default" /\
  removal (Stub (Some deletable_space) None) "known-space" tt = None /\
  fst (DeleteSpace (Stub (Some deletable_space) None)
                   "known-space" "known-owner" tt) = None /\
  removed_ids (calls (Stub (Some deletable_space) None)
                     "known-space" "known-owner" tt) = ["known-space"].
Proof.
  assert (Hd : name deletable_space <> "default") by (simpl; discriminate).
  destruct (DeleteSpace_removes_the_lookup_key unit
              (Stub (Some deletable_space) None)
              "known-space" "known-owner" tt deletable_space
              eq_refl eq_refl eq_refl Hd eq_refl)
    as [H1 [H2 _]].
  split; [reflexivity | split; [reflexivity | split; [reflexivity |]]].
  split; [exact Hd | split; [reflexivity | split; [exact H1 | exact H2]]].
Defined.

(** The hard-wired store returns the space "known-space" for the key
    "another-space"; the removal receives "another-space". *)
Lemma remove_receives_the_space_id_fails :
  ~ Readings.remove_receives_the_space_id.
Proof.
  intros H.
  destruct (H unit HardWired "another-space" "known-owner" tt
              {| id := "known-space"; ownerID := "known-owner";
                 name := "a space name"; resources := [] |})
    as [_ C]; try reflexivity.
  - simpl. discriminate.
  - vm_compute in C. discriminate C.
Qed.

(** ** The calls made on the store *)

(** C3, as amended. Every call to [DeleteSpace] invokes [FetchSpaceWithID]
    exactly once, with the lookup key. [RemoveSpaceWithID] is invoked
    exactly when the four preconditions pass, and then exactly once, with
    the lookup key, whether the removal then succeeds or fails: a call that
    returns nil has invoked it once, a call stopped by a precondition has
    not invoked it. The store receives no other call. *)
Theorem DeleteSpace_store_calls :
  forall (St : Type) (store : Store St) (key actingUser : string) (s0 : St),
    fetched_ids (calls store key actingUser s0) = [key] /\
    removed_ids (calls store key actingUser s0)
    = (if passes_guards (fetched store key s0) actingUser then [key] else []) /\
    (fst (DeleteSpace store key actingUser s0) = None ->
     removed_ids (calls store key actingUser s0) = [key]) /\
    (forall o,
        Spec.yields (fetched store key s0) actingUser (removal store key s0) o ->
        Spec.is_precondition_error o = true ->
        removed_ids (calls store key actingUser s0) = []) /\
    (calls store key actingUser s0 = [call_FetchSpaceWithID key] \/
     calls store key actingUser s0
     = [call_FetchSpaceWithID key; call_RemoveSpaceWithID key]).
Proof.
  intros St store key actingUser s0.
  split; [apply fetched_ids_calls|].
  split; [apply removed_ids_calls|].
  split; [|split].
  - intros Hnil. rewrite removed_ids_calls.
    destruct (passes_guards (fetched store key s0) actingUser) eqn:P;
      [reflexivity|].
    exfalso. revert Hnil. now apply DeleteSpace_stopped_not_nil.
  - intros o Ho Hp. rewrite removed_ids_calls.
    rewrite (yields_passes_guards store key actingUser s0 o Ho).
    destruct o; try reflexivity; discriminate Hp.
  - rewrite calls_eq.
    destruct (passes_guards (fetched store key s0) actingUser); auto.
Qed.

Lemma DeleteSpace_store_calls_witness :
  fst (DeleteSpace (Stub (Some deletable_space) None)
                   "known-space" "known-owner" tt) = None /\
  removed_ids (calls (Stub (Some deletable_space) None)
                     "known-space" "known-owner" tt) = ["known-space"] /\
  Spec.yields (fetched (Stub (Some default_space) None) "known-space" tt)
              "known-owner"
              (removal (Stub (Some default_space) None) "known-space" tt)
              Spec.ProtectedDefault /\
  Spec.is_precondition_error Spec.ProtectedDefault = true /\
  removed_ids (calls (Stub (Some default_space) None)
                     "known-space" "known-owner" tt) = [].
Proof.
  assert (Hnil : fst (DeleteSpace (Stub (Some deletable_space) None)
                                  "known-space" "known-owner" tt) = None)
    by reflexivity.
  assert (Hy : Spec.yields
                 (fetched (Stub (Some default_space) None) "known-space" tt)
                 "known-owner"
                 (removal (Stub (Some default_space) None) "known-space" tt)
                 Spec.ProtectedDefault).
  { apply Spec.step4_protected_default with default_space; reflexivity. }
  split; [exact Hnil | split; [| split; [exact Hy | split; [reflexivity |]]]].
  - exact (proj1 (proj2 (proj2 (DeleteSpace_store_calls unit
             (Stub (Some deletable_space) None)
             "known-space" "known-owner" tt))) Hnil).
  - exact (proj1 (proj2 (proj2 (proj2 (DeleteSpace_store_calls unit
             (Stub (Some default_space) None)
             "known-space" "known-owner" tt))))
             Spec.ProtectedDefault Hy eq_refl).
Defined.

(** The test "errors when the space cannot be removed": the removal is
    invoked and [DeleteSpace] returns its error. *)
Lemma write_only_when_DeleteSpace_succeeds_fails :
  ~ Readings.write_only_when_DeleteSpace_succeeds.
Proof.
  intros H.
  destruct (H unit (Stub (Some deletable_space) errSpaceCouldNotBeRemoved)
              "known-space" "known-owner" tt) as [_ [_ C]].
  assert (N : fst (DeleteSpace
                     (Stub (Some deletable_space) errSpaceCouldNotBeRemoved)
                     "known-space" "known-owner" tt) <> None)
    by (vm_compute; discriminate).
  specialize (C N). vm_compute in C. discriminate C.
Qed.

(** ** The values of the error outcomes *)

Lemma yields_RemovalFailed_not_nil (f : option Space) (actingUser : string)
    (r : error) :
  Spec.yields f actingUser r Spec.RemovalFailed -> r <> None.
Proof. intros H. inversion H. assumption. Qed.

Lemma removeSpaceWithID_values (key : string) :
  Tests.removeSpaceWithID key = None \/
  Tests.removeSpaceWithID key = errSpaceCouldNotBeRemoved.
Proof.
  unfold Tests.removeSpaceWithID.
  destruct (String.eqb key "fails-on-remove"); auto.
Qed.

(** In the self-contained version every outcome has one fixed value. *)
Lemma Tests_value_of_outcome (key actingUser : string) (o : Spec.outcome) :
  Spec.yields (Tests.fetchSpaceWithID key) actingUser
              (Tests.removeSpaceWithID key) o ->
  Tests.DeleteSpace key actingUser = Spec.error_of o errSpaceCouldNotBeRemoved.
Proof.
  intros H. rewrite (Tests_yields_returns key actingUser o H).
  destruct o; try reflexivity.
  apply yields_RemovalFailed_not_nil in H.
  destruct (removeSpaceWithID_values key) as [E|E]; [contradiction | exact E].
Qed.

(** C4, as amended. The five error variables hold five different values,
    none of them nil, and two calls stopped by different preconditions
    never return the same value. The error of a failed removal is the
    store's own error, returned as it is: it differs from the four
    precondition errors whenever the store's error is none of them. The
    hard-wired [removeSpaceWithID] returns [errSpaceCouldNotBeRemoved], so
    in the self-contained version two calls with different outcomes never
    return the same value. *)
Theorem error_outcomes_distinct_values :
  NoDup [None; errCannotFetchSpace; errNotAnOwnedSpace; errNonEmptySpace;
         errUnremovableDefaultSpace; errSpaceCouldNotBeRemoved] /\
  (forall (St1 : Type) (store1 : Store St1) (key1 who1 : string) (s1 : St1)
          (St2 : Type) (store2 : Store St2) (key2 who2 : string) (s2 : St2)
          (o1 o2 : Spec.outcome),
      Spec.yields (fetched store1 key1 s1) who1 (removal store1 key1 s1) o1 ->
      Spec.yields (fetched store2 key2 s2) who2 (removal store2 key2 s2) o2 ->
      Spec.is_precondition_error o1 = true ->
      Spec.is_precondition_error o2 = true ->
      o1 <> o2 ->
      fst (DeleteSpace store1 key1 who1 s1)
      <> fst (DeleteSpace store2 key2 who2 s2)) /\
  (forall (St1 : Type) (store1 : Store St1) (key1 who1 : string) (s1 : St1)
          (St2 : Type) (store2 : Store St2) (key2 who2 : string) (s2 : St2)
          (o2 : Spec.outcome),
      Spec.yields (fetched store1 key1 s1) who1 (removal store1 key1 s1)
                  Spec.RemovalFailed ->
      Spec.yields (fetched store2 key2 s2) who2 (removal store2 key2 s2) o2 ->
      Spec.is_precondition_error o2 = true ->
      ~ In (removal store1 key1 s1)
           [errCannotFetchSpace; errNotAnOwnedSpace; errNonEmptySpace;
            errUnremovableDefaultSpace] ->
      fst (DeleteSpace store1 key1 who1 s1) = removal store1 key1 s1 /\
      fst (DeleteSpace store1 key1 who1 s1)
      <> fst (DeleteSpace store2 key2 who2 s2)) /\
  (forall (key1 who1 key2 who2 : string) (o1 o2 : Spec.outcome),
      Spec.yields (Tests.fetchSpaceWithID key1) who1
                  (Tests.removeSpaceWithID key1) o1 ->
      Spec.yields (Tests.fetchSpaceWithID key2) who2
                  (Tests.removeSpaceWithID key2) o2 ->
      o1 <> o2 ->
      Tests.DeleteSpace key1 who1 <> Tests.DeleteSpace key2 who2).
Proof.
  split; [exact error_vars_NoDup|]. split; [|split].
  - intros St1 store1 key1 who1 s1 St2 store2 key2 who2 s2 o1 o2
           H1 H2 P1 P2 D E.
    rewrite (yields_returns store1 key1 who1 s1 o1 H1) in E.
    rewrite (yields_returns store2 key2 who2 s2 o2 H2) in E.
    apply D. now apply error_of_injective_on_preconditions in E.
  - intros St1 store1 key1 who1 s1 St2 store2 key2 who2 s2 o2
           H1 H2 P2 N.
    assert (R : fst (DeleteSpace store1 key1 who1 s1) = removal store1 key1 s1)
      by exact (yields_returns store1 key1 who1 s1 Spec.RemovalFailed H1).
    split; [exact R|].
    rewrite R, (yields_returns store2 key2 who2 s2 o2 H2).
    intros E. apply N. rewrite E.
    destruct o2; cbn; auto; discriminate P2.
  - intros key1 who1 key2 who2 o1 o2 H1 H2 D E.
    rewrite (Tests_value_of_outcome key1 who1 o1 H1) in E.
    rewrite (Tests_value_of_outcome key2 who2 o2 H2) in E.
    apply D. destruct o1, o2; try reflexivity; discriminate E.
Qed.

Lemma error_outcomes_distinct_values_witness :
  Spec.yields (fetched (Stub None None) "known-space" tt) "known-owner"
              (removal (Stub None None) "known-space" tt) Spec.NotFound /\
  Spec.yields (fetched (Stub (Some space_of_another_owner) None)
                       "known-space" tt) "known-owner"
              (removal (Stub (Some space_of_another_owner) None)
                       "known-space" tt) Spec.NotOwned /\
  Spec.is_precondition_error Spec.NotFound = true /\
  Spec.is_precondition_error Spec.NotOwned = true /\
  Spec.NotFound <> Spec.NotOwned /\
  fst (DeleteSpace (Stub None None) "known-space" "known-owner" tt)
  <> fst (DeleteSpace (Stub (Some space_of_another_owner) None)
                      "known-space" "known-owner" tt).
Proof.
  assert (H1 : Spec.yields (fetched (Stub None None) "known-space" tt)
                 "known-owner" (removal (Stub None None) "known-space" tt)
                 Spec.NotFound)
    by (apply Spec.step1_not_found; reflexivity).
  assert (H2 : Spec.yields
                 (fetched (Stub (Some space_of_another_owner) None)
                          "known-space" tt) "known-owner"
                 (removal (Stub (Some space_of_another_owner) None)
                          "known-space" tt) Spec.NotOwned).
  { apply Spec.step2_not_owned with space_of_another_owner;
      [reflexivity | simpl; discriminate]. }
  assert (D : Spec.NotFound <> Spec.NotOwned) by discriminate.
  split; [exact H1 | split; [exact H2 | split; [reflexivity |]]].
  split; [reflexivity | split; [exact D |]].
  exact (proj1 (proj2 error_outcomes_distinct_values)
           unit (Stub None None) "known-space" "known-owner" tt
           unit (Stub (Some space_of_another_owner) None)
           "known-space" "known-owner" tt
           Spec.NotFound Spec.NotOwned H1 H2 eq_refl eq_refl D).
Defined.

(** A store whose removal reports [errCannotFetchSpace] makes the call end
    in the removal's failure with the value of a space that is absent. *)
Lemma error_outcomes_never_share_a_value_fails :
  ~ Readings.error_outcomes_never_share_a_value.
Proof.
  intros H.
  apply (H unit (Stub None None) "known-space" "known-owner" tt
           unit (Stub (Some deletable_space) errCannotFetchSpace)
           "known-space" "known-owner" tt
           Spec.NotFound Spec.RemovalFailed).
  - apply Spec.step1_not_found. reflexivity.
  - apply Spec.step5_removal_failed with deletable_space;
      try reflexivity; simpl; discriminate.
  - discriminate.
  - discriminate.
  - discriminate.
  - reflexivity.
Qed.

(** ** The protected default space *)

(** C5. For every store and every fetched space named "default",
    [DeleteSpace] never invokes the store's removal and never returns nil;
    when the space is owned by the acting user and empty, it returns
    [errUnremovableDefaultSpace]. *)
Theorem default_space_is_never_removed :
  forall (St : Type) (store : Store St) (key actingUser : string) (s0 : St)
         (sp : Space),
    fetched store key s0 = Some sp ->
    name sp = "default" ->
    removed_ids (calls store key actingUser s0) = [] /\
    fst (DeleteSpace store key actingUser s0) <> None /\
    (ownerID sp = actingUser ->
     resources sp = [] ->
     fst (DeleteSpace store key actingUser s0) = errUnremovableDefaultSpace).
Proof.
  intros St store key actingUser s0 sp E Hd.
  assert (P : passes_guards (fetched store key s0) actingUser = false).
  { rewrite E. cbn. apply isTheDefault_true in Hd. rewrite Hd.
    apply andb_false_r. }
  split; [|split].
  - rewrite removed_ids_calls, P. reflexivity.
  - now apply DeleteSpace_stopped_not_nil.
  - intros Ho He.
    apply (yields_returns store key actingUser s0 Spec.ProtectedDefault).
    now apply Spec.step4_protected_default with sp.
Qed.

Lemma default_space_is_never_removed_witness :
  fetched (Stub (Some default_space) None) "known-space" tt
  = Some default_space /\
  name default_space = "default" /\
  ownerID default_space = "known-owner" /\
  resources default_space = [] /\
  removed_ids (calls (Stub (Some default_space) None)
                     "known-space" "known-owner" tt) = [] /\
  fst (DeleteSpace (Stub (Some default_space) None)
                   "known-space" "known-owner" tt)
  = errUnremovableDefaultSpace.
Proof.
  destruct (default_space_is_never_removed unit
              (Stub (Some default_space) None) "known-space" "known-owner" tt
              default_space eq_refl eq_refl) as [H1 [_ H3]].
  split; [reflexivity | split; [reflexivity | split; [reflexivity |]]].
  split; [reflexivity | split; [exact H1 | exact (H3 eq_refl eq_refl)]].
Defined.

(** ** A space that cannot be fetched *)

(** C6. For every store and every id for which [FetchSpaceWithID] returns
    nil, and every acting user, [DeleteSpace] returns [errCannotFetchSpace]
    and [RemoveSpaceWithID] is never invoked. *)
Theorem absent_space_is_not_found :
  forall (St : Type) (store : Store St) (key actingUser : string) (s0 : St),
    fetched store key s0 = None ->
    fst (DeleteSpace store key actingUser s0) = errCannotFetchSpace /\
    fst (DeleteSpace store key actingUser s0) <> None /\
    removed_ids (calls store key actingUser s0) = [].
Proof.
  intros St store key actingUser s0 E.
  assert (R : fst (DeleteSpace store key actingUser s0) = errCannotFetchSpace).
  { rewrite DeleteSpace_returns, E. reflexivity. }
  split; [exact R | split].
  - rewrite R. exact errCannotFetchSpace_not_nil.
  - rewrite removed_ids_calls, E. reflexivity.
Qed.

Lemma absent_space_is_not_found_witness :
  fetched HardWired "unknown-space" tt = None /\
  fst (DeleteSpace HardWired "unknown-space" "known-owner" tt)
  = errCannotFetchSpace /\
  removed_ids (calls HardWired "unknown-space" "known-owner" tt) = [].
Proof.
  destruct (absent_space_is_not_found unit HardWired
              "unknown-space" "known-owner" tt eq_refl) as [H1 [_ H3]].
  split; [reflexivity | split; [exact H1 | exact H3]].
Defined.

(** ** A removal that fails *)

(** C7. For every store whose removal reports an error, and every space
    that passes the four preconditions, [DeleteSpace] ends in the
    [RemovalFailed] outcome: it returns a non-nil error, and that error is
    the very value the store reported, so the cause is recovered from it by
    [==]. In the self-contained version a failed removal returns
    [errSpaceCouldNotBeRemoved], the value [removeSpaceWithID] reports. *)
Theorem removal_failure_is_forwarded :
  (forall (St : Type) (store : Store St) (key actingUser : string) (s0 : St)
          (sp : Space) (cause : error_value),
      fetched store key s0 = Some sp ->
      ownerID sp = actingUser ->
      resources sp = [] ->
      name sp <> "default" ->
      removal store key s0 = Some cause ->
      Spec.yields (fetched store key s0) actingUser (removal store key s0)
                  Spec.RemovalFailed /\
      fst (DeleteSpace store key actingUser s0) = Some cause /\
      error_eqb (fst (DeleteSpace store key actingUser s0))
                (removal store key s0) = true) /\
  (forall (key actingUser : string),
      Spec.yields (Tests.fetchSpaceWithID key) actingUser
                  (Tests.removeSpaceWithID key) Spec.RemovalFailed ->
      Tests.DeleteSpace key actingUser = errSpaceCouldNotBeRemoved /\
      Tests.DeleteSpace key actingUser = Tests.removeSpaceWithID key).
Proof.
  split.
  - intros St store key actingUser s0 sp cause E Ho He Hd Hr.
    assert (Y : Spec.yields (fetched store key s0) actingUser
                            (removal store key s0) Spec.RemovalFailed).
    { apply Spec.step5_removal_failed with sp; try assumption.
      rewrite Hr. discriminate. }
    assert (R : fst (DeleteSpace store key actingUser s0)
                = removal store key s0)
      by exact (yields_returns store key actingUser s0 Spec.RemovalFailed Y).
    split; [exact Y | split].
    + rewrite R. exact Hr.
    + apply error_eqb_eq. exact R.
  - intros key actingUser Y. split.
    + exact (Tests_value_of_outcome key actingUser Spec.RemovalFailed Y).
    + exact (Tests_yields_returns key actingUser Spec.RemovalFailed Y).
Qed.

Lemma removal_failure_is_forwarded_witness :
  fetched (Stub (Some deletable_space) (Some (other_error "*net.OpError" "timeout")))
          "known-space" tt = Some deletable_space /\
  ownerID deletable_space = "known-owner" /\
  resources deletable_space = [] /\
  name deletable_space <> "default" /\
  removal (Stub (Some deletable_space) (Some (other_error "*net.OpError" "timeout")))
          "known-space" tt = Some (other_error "*net.OpError" "timeout") /\
  fst (DeleteSpace
         (Stub (Some deletable_space) (Some (other_error "*net.OpError" "timeout")))
         "known-space" "known-owner" tt)
  = Some (other_error "*net.OpError" "timeout") /\
  Spec.yields (Tests.fetchSpaceWithID "fails-on-remove") "known-owner"
              (Tests.removeSpaceWithID "fails-on-remove") Spec.RemovalFailed /\
  Tests.DeleteSpace "fails-on-remove" "known-owner" = errSpaceCouldNotBeRemoved.
Proof.
  assert (Hd : name deletable_space <> "default") by (simpl; discriminate).
  assert (Y : Spec.yields (Tests.fetchSpaceWithID "fails-on-remove")
                "known-owner" (Tests.removeSpaceWithID "fails-on-remove")
                Spec.RemovalFailed).
  { apply Spec.step5_removal_failed
      with {| id := "known-space"; ownerID := "known-owner";
              name := "a space name"; resources := [] |};
      try reflexivity; simpl; discriminate. }
  split; [reflexivity | split; [reflexivity | split; [reflexivity |]]].
  split; [exact Hd | split; [reflexivity | split; [| split; [exact Y |]]]].
  - exact (proj1 (proj2 (proj1 removal_failure_is_forwarded unit
             (Stub (Some deletable_space)
                   (Some (other_error "*net.OpError" "timeout")))
             "known-space" "known-owner" tt deletable_space
             (other_error "*net.OpError" "timeout")
             eq_refl eq_refl eq_refl Hd eq_refl))).
  - exact (proj1 (proj2 removal_failure_is_forwarded
                    "fails-on-remove" "known-owner" Y)).
Defined.

(** ** Two calls in sequence *)

(** The state in which [DeleteSpace] leaves the store: the one after the
    fetch, or after the removal when the guards let the call through. *)
Lemma DeleteSpace_final_state {St : Type} (store : Store St)
    (key whoAmI : string) (s0 : St) :
  snd (DeleteSpace store key whoAmI s0) =
  if passes_guards (fetched store key s0) whoAmI
  then snd (RemoveSpaceWithID key (snd (FetchSpaceWithID key s0)))
  else snd (FetchSpaceWithID key s0).
Proof.
  unfold DeleteSpace, bind, ret, fetched, passes_guards.
  destruct (FetchSpaceWithID key s0) as [[sp|] s1]; cbn [fst snd];
    [|reflexivity].
  destruct (isOwnedBy sp whoAmI), (isEmpty sp), (isTheDefault sp);
    reflexivity.
Qed.

(** C8. For every store whose two capabilities leave its state as it was,
    two calls to [DeleteSpace] in sequence, with the same id and acting
    user, return the same value: the same error, or nil both times. The
    first call hands the store on unchanged; nothing else passes from one
    call to the next. *)
Theorem DeleteSpace_twice_same_result :
  forall (St : Type) (store : Store St) (key actingUser : string) (s0 : St),
    (forall k s, snd (@FetchSpaceWithID St store k s) = s) ->
    (forall k s, snd (@RemoveSpaceWithID St store k s) = s) ->
    let twice :=
      r1 <- DeleteSpace store key actingUser ;;
      r2 <- DeleteSpace store key actingUser ;;
      ret (r1, r2) in
    fst (fst (twice s0)) = snd (fst (twice s0)) /\
    fst (fst (twice s0)) = fst (DeleteSpace store key actingUser s0) /\
    snd (twice s0) = s0.
Proof.
  intros St store key actingUser s0 Hf Hr twice.
  assert (S : snd (DeleteSpace store key actingUser s0) = s0).
  { rewrite DeleteSpace_final_state.
    destruct (passes_guards (fetched store key s0) actingUser);
      now rewrite ?Hr, Hf. }
  subst twice. unfold bind, ret.
  destruct (DeleteSpace store key actingUser s0) as [r1 s1] eqn:E1.
  cbn [snd] in S. subst s1. rewrite E1. cbn. auto.
Qed.

Lemma DeleteSpace_twice_same_result_witness :
  (forall k s, snd (@FetchSpaceWithID unit HardWired k s) = s) /\
  (forall k s, snd (@RemoveSpaceWithID unit HardWired k s) = s) /\
  fst (fst ((r1 <- DeleteSpace HardWired "fails-on-remove" "known-owner" ;;
             r2 <- DeleteSpace HardWired "fails-on-remove" "known-owner" ;;
             ret (r1, r2)) tt))
  = snd (fst ((r1 <- DeleteSpace HardWired "fails-on-remove" "known-owner" ;;
               r2 <- DeleteSpace HardWired "fails-on-remove" "known-owner" ;;
               ret (r1, r2)) tt)).
Proof.
  assert (Hf : forall k s, snd (@FetchSpaceWithID unit HardWired k s) = s)
    by (intros k s; reflexivity).
  assert (Hr : forall k s, snd (@RemoveSpaceWithID unit HardWired k s) = s)
    by (intros k s; reflexivity).
  split; [exact Hf | split; [exact Hr |]].
  exact (proj1 (DeleteSpace_twice_same_result unit HardWired
                  "fails-on-remove" "known-owner" tt Hf Hr)).
Defined.

(** On a store that does remove, the second call finds nothing: the
    hypotheses on the store are needed. *)
Example InMemory_second_call :
  (r1 <- DeleteSpace InMemory "known-space" "known-owner" ;;
   r2 <- DeleteSpace InMemory "known-space" "known-owner" ;;
   ret (r1, r2)) [deletable_space]
  = ((None, errCannotFetchSpace), []).
Proof. reflexivity. Qed.

(** ** The two versions *)

(** C9. The self-contained [DeleteSpace] and the injected one agree: for
    every id and acting user, the self-contained version returns what the
    injected version returns on the store whose capabilities are
    [fetchSpaceWithID] and [removeSpaceWithID]; that store has no state to
    change. *)
Theorem self_contained_agrees_with_injected :
  forall (key whoAmI : string) (u : unit),
    DeleteSpace HardWired key whoAmI u = (Tests.DeleteSpace key whoAmI, u) /\
    Tests.DeleteSpace key whoAmI = fst (DeleteSpace HardWired key whoAmI tt).
Proof.
  intros key whoAmI u. split.
  - destruct u.
    rewrite (surjective_pairing (DeleteSpace HardWired key whoAmI tt)).
    rewrite <- Tests_DeleteSpace_on_HardWired.
    destruct (snd (DeleteSpace HardWired key whoAmI tt)). reflexivity.
  - apply Tests_DeleteSpace_on_HardWired.
Qed.

(** ** The key handed to the removal *)

(** C10. When the four preconditions pass, [DeleteSpace] invokes the
    store's removal with the id it was called with, not with the [id] field
    of the fetched space: when the two differ, the removal still receives
    the lookup id and no removal of the space's own id is asked for. The
    value returned is the removal's, unmodified. *)
Theorem removal_receives_the_caller_id :
  forall (St : Type) (store : Store St) (key actingUser : string) (s0 : St)
         (sp : Space),
    fetched store key s0 = Some sp ->
    ownerID sp = actingUser ->
    resources sp = [] ->
    name sp <> "default" ->
    removed_ids (calls store key actingUser s0) = [key] /\
    (id sp <> key ->
     ~ In (call_RemoveSpaceWithID (id sp)) (calls store key actingUser s0)) /\
    fst (DeleteSpace store key actingUser s0) = removal store key s0.
Proof.
  intros St store key actingUser s0 sp E Ho He Hd.
  assert (P : passes_guards (fetched store key s0) actingUser = true).
  { apply passes_guards_true. exists sp. auto. }
  split; [|split].
  - rewrite removed_ids_calls, P. reflexivity.
  - intros D. rewrite calls_eq, P. cbn [In].
    intros [C | [C | []]]; [discriminate C | injection C as C; auto].
  - now apply DeleteSpace_returns_removal.
Qed.

Lemma removal_receives_the_caller_id_witness :
  fetched HardWired "another-space" tt
  = Some {| id := "known-space"; ownerID := "known-owner";
            name := "a space name"; resources := [] |} /\
  "known-space" <> "another-space" /\
  removed_ids (calls HardWired "another-space" "known-owner" tt)
  = ["another-space"] /\
  ~ In (call_RemoveSpaceWithID "known-space")
       (calls HardWired "another-space" "known-owner" tt).
Proof.
  assert (Hd : "a space name" <> "default") by discriminate.
  assert (D : "known-space" <> "another-space") by discriminate.
  destruct (removal_receives_the_caller_id unit HardWired
              "another-space" "known-owner" tt
              {| id := "known-space"; ownerID := "known-owner";
                 name := "a space name"; resources := [] |}
              eq_refl eq_refl eq_refl Hd) as [H1 [H2 _]].
  split; [reflexivity | split; [exact D | split; [exact H1 | exact (H2 D)]]].
Defined.

(** * Further properties of the code *)

(** ** The hard-wired functions of the self-contained version *)

(** [fetchSpaceWithID] returns nil for the key "unknown-space" only. Every
    space it returns has the id "known-space" and the owner "known-owner",
    whatever the key; it holds a resource for the key "non-empty-space"
    only, and is named "default" for the key "default-space" only. *)
Theorem fetchSpaceWithID_cases :
  forall key : string,
    (Tests.fetchSpaceWithID key = None <-> key = "unknown-space") /\
    (forall sp,
        Tests.fetchSpaceWithID key = Some sp ->
        id sp = "known-space" /\
        ownerID sp = "known-owner" /\
        (resources sp <> [] <-> key = "non-empty-space") /\
        (name sp = "default" <-> key = "default-space")).
Proof.
  intros key. unfold Tests.fetchSpaceWithID.
  destruct (String.eqb_spec key "unknown-space") as [->|N1].
  { split; [tauto | discriminate]. }
  destruct (String.eqb_spec key "non-empty-space") as [->|N2].
  { split; [split; discriminate|].
    intros sp E. injection E as <-. cbn.
    repeat split; try discriminate; auto. }
  destruct (String.eqb_spec key "default-space") as [->|N3].
  { split; [split; discriminate|].
    intros sp E. injection E as <-. cbn.
    repeat split; try discriminate; auto; intros; exfalso; auto. }
  split; [split; [discriminate | contradiction]|].
  intros sp E. injection E as <-. cbn.
  repeat split; try discriminate; auto; intros; exfalso; auto.
Qed.

Lemma fetchSpaceWithID_cases_witness :
  Tests.fetchSpaceWithID "non-empty-space"
  = Some {| id := "known-space"; ownerID := "known-owner";
            name := "a space name"; resources := [mk_resource] |} /\
  id {| id := "known-space"; ownerID := "known-owner";
        name := "a space name"; resources := [mk_resource] |}
  = "known-space".
Proof.
  split; [reflexivity|].
  exact (proj1 (proj2 (fetchSpaceWithID_cases "non-empty-space")
                  {| id := "known-space"; ownerID := "known-owner";
                     name := "a space name"; resources := [mk_resource] |}
                  eq_refl)).
Defined.

(** The self-contained version as one chain of tests on its arguments. *)
Lemma Tests_DeleteSpace_chain (key whoAmI : string) :
  Tests.DeleteSpace key whoAmI =
  if String.eqb key "unknown-space" then errCannotFetchSpace
  else if negb (String.eqb "known-owner" whoAmI) then errNotAnOwnedSpace
  else if String.eqb key "non-empty-space" then errNonEmptySpace
  else if String.eqb key "default-space" then errUnremovableDefaultSpace
  else if String.eqb key "fails-on-remove" then errSpaceCouldNotBeRemoved
  else None.
Proof.
  unfold Tests.DeleteSpace, Tests.fetchSpaceWithID, Tests.removeSpaceWithID.
  destruct (String.eqb key "unknown-space"); [reflexivity|].
  destruct (String.eqb key "non-empty-space"),
           (String.eqb key "default-space"),
           (String.eqb key "fails-on-remove");
    unfold isOwnedBy, set_resources, set_name; cbn -[String.eqb];
    destruct (String.eqb "known-owner" whoAmI); reflexivity.
Qed.

(** The whole table of the self-contained [DeleteSpace]: which arguments
    give which of the five errors, and which give nil. The call succeeds
    exactly for the owner "known-owner" and a key that is none of
    "unknown-space", "non-empty-space", "default-space" and
    "fails-on-remove". *)
Theorem Tests_DeleteSpace_table :
  forall key whoAmI : string,
    (Tests.DeleteSpace key whoAmI = errCannotFetchSpace
     <-> key = "unknown-space") /\
    (Tests.DeleteSpace key whoAmI = errNotAnOwnedSpace
     <-> key <> "unknown-space" /\ whoAmI <> "known-owner") /\
    (Tests.DeleteSpace key whoAmI = errNonEmptySpace
     <-> key = "non-empty-space" /\ whoAmI = "known-owner") /\
    (Tests.DeleteSpace key whoAmI = errUnremovableDefaultSpace
     <-> key = "default-space" /\ whoAmI = "known-owner") /\
    (Tests.DeleteSpace key whoAmI = errSpaceCouldNotBeRemoved
     <-> key = "fails-on-remove" /\ whoAmI = "known-owner") /\
    (Tests.DeleteSpace key whoAmI = None
     <-> whoAmI = "known-owner" /\
         ~ In key ["unknown-space"; "non-empty-space"; "default-space";
                   "fails-on-remove"]).
Proof.
  intros key whoAmI. rewrite Tests_DeleteSpace_chain.
  destruct (String.eqb_spec "known-owner" whoAmI) as [<-|W];
    destruct (String.eqb_spec key "unknown-space") as [->|N1];
    try (destruct (String.eqb_spec key "non-empty-space") as [->|N2]);
    try (destruct (String.eqb_spec key "default-space") as [->|N3]);
    try (destruct (String.eqb_spec key "fails-on-remove") as [->|N4]);
    cbn [negb In];
    repeat split; intros;
      repeat match goal with
             | H : _ /\ _ |- _ => destruct H
             | H : _ \/ _ |- _ => destruct H
             | H : ~ (_ \/ _) |- _ => exfalso; apply H; clear H
             end;
      try discriminate; try congruence; try reflexivity; auto 8;
      try (intros [E|[E|[E|[E|[]]]]]; congruence).
Qed.

Lemma Tests_DeleteSpace_table_witness :
  "known-owner" = "known-owner" /\
  ~ In "a-space-of-mine" ["unknown-space"; "non-empty-space"; "default-space";
                          "fails-on-remove"] /\
  Tests.DeleteSpace "a-space-of-mine" "known-owner" = None.
Proof.
  assert (N : ~ In "a-space-of-mine"
                ["unknown-space"; "non-empty-space"; "default-space";
                 "fails-on-remove"]).
  { cbn. intros [H|[H|[H|[H|[]]]]]; discriminate H. }
  split; [reflexivity | split; [exact N |]].
  exact (proj2 (proj2 (proj2 (proj2 (proj2 (proj2
           (Tests_DeleteSpace_table "a-space-of-mine" "known-owner"))))))
           (conj eq_refl N)).
Defined.

(** ** The test file of the self-contained version *)

Lemma Tests_DeleteSpace_values (key whoAmI : string) :
  In (Tests.DeleteSpace key whoAmI)
     [errCannotFetchSpace; errNotAnOwnedSpace; errNonEmptySpace;
      errUnremovableDefaultSpace; errSpaceCouldNotBeRemoved; None].
Proof.
  rewrite Tests_DeleteSpace_chain.
  destruct (String.eqb key "unknown-space"),
           (String.eqb "known-owner" whoAmI),
           (String.eqb key "non-empty-space"),
           (String.eqb key "default-space"),
           (String.eqb key "fails-on-remove"); cbn; auto 10.
Qed.

(** Whatever the [given...] helpers have set, after [whenDeletingTheSpace]
    exactly one of the six [then...] checks goes through: the checks tell
    the six results apart and leave none out. The six subtests of
    [TestDeleteSpace] all pass. *)
Theorem then_checks_tell_the_results_apart :
  (forall t : TestsHarness.testDeleteSpace,
      count_occ Bool.bool_dec
        (TestsHarness.then_checks (TestsHarness.whenDeletingTheSpace t)) true
      = 1) /\
  forallb (fun passed => passed) TestsHarness.TestDeleteSpace = true.
Proof.
  split; [|reflexivity].
  intros t.
  unfold TestsHarness.then_checks, TestsHarness.whenDeletingTheSpace,
    TestsHarness.thenACannotFetchSpaceErrorIsReturned,
    TestsHarness.thenANotAnOwnedSpaceErrorIsReturned,
    TestsHarness.thenANonEmptySpaceErrorIsReturned,
    TestsHarness.thenAnUnremovableDefaultSpaceErrorIsReturned,
    TestsHarness.thenASpaceCouldNotBeRemovedErrorIsReturned,
    TestsHarness.thenNoErrorsAreReturned.
  cbn [TestsHarness.returnedErr].
  destruct (Tests_DeleteSpace_values (TestsHarness.spaceID t)
                                     (TestsHarness.ownerID t))
    as [E|[E|[E|[E|[E|[E|[]]]]]]]; rewrite <- E; reflexivity.
Qed.

(** ** When the injected version succeeds *)

(** [DeleteSpace] returns nil exactly when the store returned a space that
    is owned by the caller, empty and not named "default", and the removal
    that follows reported no error. *)
Theorem DeleteSpace_succeeds_iff :
  forall (St : Type) (store : Store St) (key whoAmI : string) (s0 : St),
    fst (DeleteSpace store key whoAmI s0) = None <->
    exists sp,
      fetched store key s0 = Some sp /\
      ownerID sp = whoAmI /\
      resources sp = [] /\
      name sp <> "default" /\
      removal store key s0 = None.
Proof.
  intros St store key whoAmI s0. split.
  - intros H.
    destruct (passes_guards (fetched store key s0) whoAmI) eqn:P.
    + rewrite DeleteSpace_returns_removal in H by exact P.
      apply passes_guards_true in P.
      destruct P as [sp [E [Ho [He Hd]]]]. exists sp. auto.
    + exfalso. revert H. now apply DeleteSpace_stopped_not_nil.
  - intros [sp [E [Ho [He [Hd Hr]]]]].
    rewrite DeleteSpace_returns_removal; [exact Hr|].
    apply passes_guards_true. exists sp. auto.
Qed.

Lemma DeleteSpace_succeeds_iff_witness :
  fst (DeleteSpace HardWired "a-space-of-mine" "known-owner" tt) = None /\
  exists sp,
    fetched HardWired "a-space-of-mine" tt = Some sp /\
    ownerID sp = "known-owner" /\
    resources sp = [] /\
    name sp <> "default" /\
    removal HardWired "a-space-of-mine" tt = None.
Proof.
  assert (H : fst (DeleteSpace HardWired "a-space-of-mine" "known-owner" tt)
              = None) by reflexivity.
  split; [exact H|].
  exact (proj1 (DeleteSpace_succeeds_iff unit HardWired
                  "a-space-of-mine" "known-owner" tt) H).
Defined.

(** ** The nested version of the guard-clauses chapter *)

Lemma Error_fresh (h : errors.heap) (text : string) :
  Error (h ++ [text]) (Some (errorString_ptr (List.length h))) = Some text.
Proof.
  cbn [Error]. rewrite nth_error_app2 by lia.
  rewrite Nat.sub_diag. reflexivity.
Qed.

(** The nested [DeleteSpace] and the one with guard clauses make the same
    calls on the store and succeed on the same inputs. For a space that was
    fetched they report the same message. For a space that cannot be
    fetched the nested version reports "only owned spaces can be removed",
    where the guard clauses report "cannot fetch the space". *)
Theorem nested_DeleteSpace_against_guard_clauses :
  forall (St : Type) (store : Store St) (key whoAmI : string)
         (rest : errors.heap) (s0 : St),
    let nested :=
      GuardClauses.DeleteSpace store key whoAmI (package_heap ++ rest, s0) in
    let guarded := DeleteSpace store key whoAmI s0 in
    snd (snd nested) = snd guarded /\
    (fst nested = None <-> fst guarded = None) /\
    (fetched store key s0 <> None ->
     Error (fst (snd nested)) (fst nested)
     = Error (fst (snd nested)) (fst guarded)) /\
    (fetched store key s0 = None ->
     Error (fst (snd nested)) (fst nested)
     = Some "only owned spaces can be removed" /\
     Error (fst (snd nested)) (fst guarded)
     = Some "cannot fetch the space").
Proof.
  intros St store key whoAmI rest s0.
  unfold GuardClauses.DeleteSpace, DeleteSpace, bind, ret, on_store, on_heap,
    errors.New, fetched, isOwnedBy, isEmpty, isTheDefault, defaultSpaceName.
  destruct (FetchSpaceWithID key s0) as [[sp|] s1]; cbn [fst snd].
  - destruct (String.eqb (ownerID sp) whoAmI),
             (Nat.eqb (List.length (resources sp)) 0),
             (String.eqb (name sp) "default"); cbn [negb fst snd];
      try (destruct (RemoveSpaceWithID key s1) as [r s2]; cbn [fst snd];
           repeat split; auto; discriminate);
      (split; [reflexivity|]; split; [split; discriminate|];
       split; [intros _ | discriminate];
       rewrite Error_fresh; reflexivity).
  - split; [reflexivity|]. split; [split; discriminate|].
    split; [intros H; now contradiction H|].
    intros _. split; [apply Error_fresh | reflexivity].
Qed.

Lemma nested_DeleteSpace_against_guard_clauses_witness :
  fetched HardWired "unknown-space" tt = None /\
  Error (fst (snd (GuardClauses.DeleteSpace HardWired "unknown-space"
                     "known-owner" (package_heap ++ [], tt))))
        (fst (GuardClauses.DeleteSpace HardWired "unknown-space"
                "known-owner" (package_heap ++ [], tt)))
  = Some "only owned spaces can be removed".
Proof.
  split; [reflexivity|].
  exact (proj1 (proj2 (proj2 (proj2
           (nested_DeleteSpace_against_guard_clauses unit HardWired
              "unknown-space" "known-owner" [] tt))) eq_refl)).
Defined.

(** ** Functional options *)

Module ThirdStyleFacts.
Import ThirdStyle.

(** Applying a list of the three options to any [ThirdAPI]. *)
Lemma apply_options (cs : list option_call) (api : ThirdAPI) :
  fold_left (fun api option => option api) (map eval_option cs) api =
  {| clientName := clientName api;
     aPIKey := aPIKey api;
     requestTimeout := match last_timeout cs with
                       | Some d => d
                       | None => requestTimeout api
                       end;
     dumpDebugLogs := dumpDebugLogs api || existsb is_debug cs;
     isDryRun := isDryRun api || existsb is_dry_run cs |}.
Proof.
  revert api. induction cs as [|c cs IH]; intros api.
  - cbn. rewrite !orb_false_r. destruct api; reflexivity.
  - cbn [map fold_left]. rewrite IH.
    destruct c; cbn [eval_option WithRequestTimeout WithDebugLogsEnabled
                     RunningOnDryRunMode clientName aPIKey requestTimeout
                     dumpDebugLogs isDryRun last_timeout existsb is_debug
                     is_dry_run];
      destruct (last_timeout cs); rewrite ?orb_true_r, ?orb_false_l;
      try reflexivity;
      destruct (dumpDebugLogs api), (isDryRun api); reflexivity.
Qed.

Lemma filter_Permutation {A : Type} (f : A -> bool) (l1 l2 : list A) :
  Permutation l1 l2 -> Permutation (filter f l1) (filter f l2).
Proof.
  induction 1 as [|x l l' _ IH|x y l|l l' l'' _ IH1 _ IH2]; cbn.
  - constructor.
  - destruct (f x); [now constructor | exact IH].
  - destruct (f x), (f y); try reflexivity. constructor.
  - now transitivity (filter f l').
Qed.

Lemma last_timeout_filter (cs : list option_call) :
  last_timeout cs = last_timeout (filter is_timeout cs).
Proof.
  induction cs as [|c cs IH]; [reflexivity|].
  destruct c; cbn [filter is_timeout last_timeout]; rewrite IH;
    destruct (last_timeout (filter is_timeout cs)); reflexivity.
Qed.

Lemma existsb_Permutation {A : Type} (f : A -> bool) (l1 l2 : list A) :
  Permutation l1 l2 -> existsb f l1 = existsb f l2.
Proof.
  intros P.
  destruct (existsb f l1) eqn:E1, (existsb f l2) eqn:E2; try reflexivity.
  - apply existsb_exists in E1. destruct E1 as [x [I F]].
    assert (E : existsb f l2 = true).
    { apply existsb_exists. exists x. split; [|exact F].
      now apply Permutation_in with l1. }
    congruence.
  - apply existsb_exists in E2. destruct E2 as [x [I F]].
    assert (E : existsb f l1 = true).
    { apply existsb_exists. exists x. split; [|exact F].
      apply Permutation_in with l2; [now symmetry | exact I]. }
    congruence.
Qed.

End ThirdStyleFacts.

Lemma NewThirdAPI_with_options_aux (clientName apiKey : string)
    (cs : list ThirdStyle.option_call) :
  ThirdStyle.NewThirdAPI clientName apiKey (map ThirdStyle.eval_option cs) =
  {| ThirdStyle.clientName := clientName;
     ThirdStyle.aPIKey := apiKey;
     ThirdStyle.requestTimeout :=
       match ThirdStyle.last_timeout cs with
       | Some d => d
       | None => 0%Z
       end;
     ThirdStyle.dumpDebugLogs := existsb ThirdStyle.is_debug cs;
     ThirdStyle.isDryRun := existsb ThirdStyle.is_dry_run cs |}.
Proof.
  unfold ThirdStyle.NewThirdAPI.
  rewrite ThirdStyleFacts.apply_options. reflexivity.
Qed.

(** [NewThirdAPI] with any list of the three options: the two required
    arguments are kept as given, the request timeout is the one of the
    last [WithRequestTimeout] (zero when there is none), and each flag is
    set exactly when its option occurs; no option clears a flag. *)
Theorem NewThirdAPI_with_options :
  forall (clientName apiKey : string) (cs : list ThirdStyle.option_call),
    ThirdStyle.NewThirdAPI clientName apiKey (map ThirdStyle.eval_option cs) =
    {| ThirdStyle.clientName := clientName;
       ThirdStyle.aPIKey := apiKey;
       ThirdStyle.requestTimeout :=
         match ThirdStyle.last_timeout cs with
         | Some d => d
         | None => 0%Z
         end;
       ThirdStyle.dumpDebugLogs := existsb ThirdStyle.is_debug cs;
       ThirdStyle.isDryRun := existsb ThirdStyle.is_dry_run cs |}.
Proof. exact NewThirdAPI_with_options_aux. Qed.

(** The order of the options does not matter to [NewThirdAPI] as long as
    at most one of them is a [WithRequestTimeout]. *)
Theorem NewThirdAPI_order_of_options :
  forall (clientName apiKey : string) (cs1 cs2 : list ThirdStyle.option_call),
    Permutation cs1 cs2 ->
    List.length (filter ThirdStyle.is_timeout cs1) <= 1 ->
    ThirdStyle.NewThirdAPI clientName apiKey (map ThirdStyle.eval_option cs1)
    = ThirdStyle.NewThirdAPI clientName apiKey
        (map ThirdStyle.eval_option cs2).
Proof.
  intros clientName apiKey cs1 cs2 P L.
  unfold ThirdStyle.NewThirdAPI.
  rewrite !ThirdStyleFacts.apply_options.
  rewrite (ThirdStyleFacts.existsb_Permutation ThirdStyle.is_debug _ _ P).
  rewrite (ThirdStyleFacts.existsb_Permutation ThirdStyle.is_dry_run _ _ P).
  assert (T : ThirdStyle.last_timeout cs1 = ThirdStyle.last_timeout cs2).
  { rewrite (ThirdStyleFacts.last_timeout_filter cs1),
            (ThirdStyleFacts.last_timeout_filter cs2).
    pose proof (ThirdStyleFacts.filter_Permutation ThirdStyle.is_timeout
                  _ _ P) as PF.
    destruct (filter ThirdStyle.is_timeout cs1) as [|x [|y l]].
    - apply Permutation_nil in PF. rewrite PF. reflexivity.
    - apply Permutation_length_1_inv in PF. rewrite PF. reflexivity.
    - cbn in L. lia. }
  rewrite T. reflexivity.
Qed.

Lemma NewThirdAPI_order_of_options_witness :
  Permutation
    [ThirdStyle.call_WithDebugLogsEnabled;
     ThirdStyle.call_WithRequestTimeout 30%Z]
    [ThirdStyle.call_WithRequestTimeout 30%Z;
     ThirdStyle.call_WithDebugLogsEnabled] /\
  List.length (filter ThirdStyle.is_timeout
                 [ThirdStyle.call_WithDebugLogsEnabled;
                  ThirdStyle.call_WithRequestTimeout 30%Z]) <= 1 /\
  ThirdStyle.NewThirdAPI "client" "key"
    (map ThirdStyle.eval_option
       [ThirdStyle.call_WithDebugLogsEnabled;
        ThirdStyle.call_WithRequestTimeout 30%Z])
  = ThirdStyle.NewThirdAPI "client" "key"
      (map ThirdStyle.eval_option
         [ThirdStyle.call_WithRequestTimeout 30%Z;
          ThirdStyle.call_WithDebugLogsEnabled]).
Proof.
  assert (P : Permutation
                [ThirdStyle.call_WithDebugLogsEnabled;
                 ThirdStyle.call_WithRequestTimeout 30%Z]
                [ThirdStyle.call_WithRequestTimeout 30%Z;
                 ThirdStyle.call_WithDebugLogsEnabled])
    by apply perm_swap.
  assert (L : List.length (filter ThirdStyle.is_timeout
                 [ThirdStyle.call_WithDebugLogsEnabled;
                  ThirdStyle.call_WithRequestTimeout 30%Z]) <= 1)
    by (simpl; lia).
  split; [exact P | split; [exact L |]].
  exact (NewThirdAPI_order_of_options "client" "key" _ _ P L).
Defined.

(** With two different timeouts the order does matter: the last one
    stays. *)
Example NewThirdAPI_two_timeouts :
  ThirdStyle.requestTimeout
    (ThirdStyle.NewThirdAPI "client" "key"
       [ThirdStyle.WithRequestTimeout 10%Z; ThirdStyle.WithRequestTimeout 30%Z])
  = 30%Z /\
  ThirdStyle.requestTimeout
    (ThirdStyle.NewThirdAPI "client" "key"
       [ThirdStyle.WithRequestTimeout 30%Z; ThirdStyle.WithRequestTimeout 10%Z])
  = 10%Z.
Proof. split; reflexivity. Qed.

(** Every configuration that [NewFirstAPI] accepts can be written with
    the options of [NewThirdAPI]: some list of options gives the same five
    fields. *)
Theorem every_config_is_a_list_of_options :
  forall config : FirstStyle.FirstAPIConfig,
  exists cs : list ThirdStyle.option_call,
    let third :=
      ThirdStyle.NewThirdAPI (FirstStyle.ClientName config)
        (FirstStyle.APIKey config) (map ThirdStyle.eval_option cs) in
    let first := FirstStyle.NewFirstAPI config in
    ThirdStyle.clientName third = FirstStyle.clientName first /\
    ThirdStyle.aPIKey third = FirstStyle.aPIKey first /\
    ThirdStyle.requestTimeout third = FirstStyle.requestTimeout first /\
    ThirdStyle.dumpDebugLogs third = FirstStyle.dumpDebugLogs first /\
    ThirdStyle.isDryRun third = FirstStyle.isDryRun first.
Proof.
  intros [c k d dbg dry].
  exists ([ThirdStyle.call_WithRequestTimeout d]
          ++ (if dbg then [ThirdStyle.call_WithDebugLogsEnabled] else [])
          ++ (if dry then [ThirdStyle.call_RunningOnDryRunMode] else [])).
  cbv zeta. rewrite NewThirdAPI_with_options_aux.
  destruct dbg, dry; cbn; repeat split.
Qed.

Lemma last_cons_default {A : Type} (x : A) (l : list A) (a b : A) :
  last (x :: l) a = last (x :: l) b.
Proof.
  revert x. induction l as [|y l IH]; intros x; [reflexivity|].
  change (last (y :: l) a = last (y :: l) b). apply IH.
Qed.

Lemma SecondAPI_timeouts (ds : list Duration) (api : SecondStyle.SecondAPI) :
  fold_left (fun api dur => SecondStyle.WithRequestTimeout dur api) ds api =
  {| SecondStyle.clientName := SecondStyle.clientName api;
     SecondStyle.aPIKey := SecondStyle.aPIKey api;
     SecondStyle.requestTimeout := last ds (SecondStyle.requestTimeout api);
     SecondStyle.dumpDebugLogs := SecondStyle.dumpDebugLogs api;
     SecondStyle.isDryRun := SecondStyle.isDryRun api |}.
Proof.
  revert api. induction ds as [|d ds IH]; intros api.
  - destruct api; reflexivity.
  - cbn [fold_left]. rewrite IH.
    cbn [SecondStyle.WithRequestTimeout SecondStyle.clientName
         SecondStyle.aPIKey SecondStyle.requestTimeout
         SecondStyle.dumpDebugLogs SecondStyle.isDryRun].
    destruct ds as [|d0 ds]; [reflexivity|].
    rewrite (last_cons_default d0 ds d (SecondStyle.requestTimeout api)).
    reflexivity.
Qed.

(** A [SecondAPI] made by [NewSecondAPI] and any number of calls to its
    method [WithRequestTimeout] keeps the two names it was made with, has
    the timeout of the last call (zero without a call), and never has the
    debug logs or the dry-run mode on: the second style cannot set them. *)
Theorem SecondAPI_only_sets_the_timeout :
  forall (clientName apiKey : string) (ds : list Duration),
    fold_left (fun api dur => SecondStyle.WithRequestTimeout dur api) ds
              (SecondStyle.NewSecondAPI clientName apiKey) =
    {| SecondStyle.clientName := clientName;
       SecondStyle.aPIKey := apiKey;
       SecondStyle.requestTimeout := last ds 0%Z;
       SecondStyle.dumpDebugLogs := false;
       SecondStyle.isDryRun := false |}.
Proof.
  intros clientName apiKey ds. rewrite SecondAPI_timeouts. reflexivity.
Qed.

(** ** The player's domain and use case *)

Module PlayerFacts.
Import domain application.

Lemma VideoIDFrom_empty (h : errors.heap) :
  VideoIDFrom "" h =
  ((NoVideo, Some (errorString_ptr (List.length h))),
   h ++ ["invalid video ID"]).
Proof. reflexivity. Qed.

Lemma VideoIDFrom_not_empty (raw : string) (h : errors.heap) :
  raw <> "" -> VideoIDFrom raw h = ((raw, None), h).
Proof.
  intros N. unfold VideoIDFrom.
  destruct (String.eqb_spec raw ""); [contradiction | reflexivity].
Qed.

End PlayerFacts.

(** [VideoIDFrom] reports an error exactly for the empty string. A
    string that is accepted comes back unchanged as the id, is never
    [NoVideo], and nothing is allocated; the empty string gives [NoVideo]
    with an error whose message is "invalid video ID". *)
Theorem VideoIDFrom_validates :
  forall (raw : string) (h : errors.heap),
    let videoID := fst (fst (domain.VideoIDFrom raw h)) in
    let err := snd (fst (domain.VideoIDFrom raw h)) in
    let h' := snd (domain.VideoIDFrom raw h) in
    (err <> None <-> raw = "") /\
    (err = None -> videoID = raw /\ videoID <> domain.NoVideo /\ h' = h) /\
    (err <> None ->
     videoID = domain.NoVideo /\ Error h' err = Some "invalid video ID").
Proof.
  intros raw h. cbv zeta.
  destruct (String.eqb_spec raw "") as [->|N].
  - rewrite PlayerFacts.VideoIDFrom_empty. cbn [fst snd].
    split; [split; [reflexivity | discriminate]|].
    split; [discriminate|]. intros _.
    split; [reflexivity | apply Error_fresh].
  - rewrite PlayerFacts.VideoIDFrom_not_empty by exact N. cbn [fst snd].
    split; [split; [intros H; now contradiction H | contradiction]|].
    split; [intros _; repeat split; exact N|].
    intros H. now contradiction H.
Qed.

Lemma VideoIDFrom_validates_witness :
  snd (fst (domain.VideoIDFrom "video-1" [])) = None /\
  fst (fst (domain.VideoIDFrom "video-1" [])) = "video-1".
Proof.
  split; [reflexivity|].
  exact (proj1 (proj1 (proj2 (VideoIDFrom_validates "video-1" [])) eq_refl)).
Defined.

(** Each failure of [VideoIDFrom] carries an error value of its own: it
    is equal to no error allocated before the call, and two failures in a
    row return two different values with the same message. A caller cannot
    recognise the error with [==]. *)
Theorem VideoIDFrom_errors_are_fresh :
  forall h : errors.heap,
    let first := domain.VideoIDFrom "" h in
    let second := domain.VideoIDFrom "" (snd first) in
    (forall a, a < List.length h ->
               snd (fst first) <> Some (errorString_ptr a)) /\
    error_eqb (snd (fst first)) (snd (fst second)) = false /\
    Error (snd second) (snd (fst first))
    = Error (snd second) (snd (fst second)).
Proof.
  intros h. cbv zeta. rewrite !PlayerFacts.VideoIDFrom_empty. cbn [fst snd].
  split; [|split].
  - intros a L E. injection E as E. lia.
  - unfold error_eqb.
    destruct (error_eq_dec _ _) as [E|E]; [|reflexivity].
    injection E as E. rewrite length_app in E. cbn in E. lia.
  - rewrite Error_fresh. cbn [Error].
    rewrite nth_error_app1 by (rewrite length_app; cbn; lia).
    rewrite nth_error_app2 by lia. rewrite Nat.sub_diag. reflexivity.
Qed.

Lemma VideoIDFrom_errors_are_fresh_witness :
  2 < List.length package_heap /\
  snd (fst (domain.VideoIDFrom "" package_heap)) <> errNonEmptySpace.
Proof.
  assert (L : 2 < List.length package_heap) by (vm_compute; lia).
  split; [exact L|].
  exact (proj1 (VideoIDFrom_errors_are_fresh package_heap) 2 L).
Defined.

(** [PlayNext] on the empty string returns [NoVideo] with the error of
    [VideoIDFrom] and does not touch the store: no call is made on it and
    its state stays as it was. *)
Theorem PlayNext_rejects_the_empty_id :
  forall (St : Type) (store : domain.Store St) (h : errors.heap) (s0 : St),
    let r := application.PlayNextUseCase store "" (h, s0) in
    fst (fst r) = domain.NoVideo /\
    snd (fst r) <> None /\
    Error (fst (snd r)) (snd (fst r)) = Some "invalid video ID" /\
    snd (snd r) = s0 /\
    application.calls store "" h s0 = [].
Proof.
  intros St store h s0. cbv zeta.
  unfold application.calls, application.PlayNextUseCase, bind, ret, on_heap.
  rewrite !PlayerFacts.VideoIDFrom_empty. cbn [fst snd].
  split; [reflexivity|]. split; [discriminate|].
  split; [apply Error_fresh|]. split; reflexivity.
Qed.

(** [PlayNext] on a non-empty id returns no error and allocates nothing.
    It asks the store once whether play-next is enabled; when it is not,
    it returns [NoVideo] and makes no other call; when it is, it calls
    [NextAfter] once, with the id it was given, and returns the store's
    answer. *)
Theorem PlayNext_consults_the_store :
  forall (St : Type) (store : domain.Store St) (currentlyPlaying : string)
         (h : errors.heap) (s0 : St),
    currentlyPlaying <> "" ->
    let r := application.PlayNextUseCase store currentlyPlaying (h, s0) in
    let enabled := fst (@domain.IsPlayNextEnabled St store s0) in
    let s1 := snd (@domain.IsPlayNextEnabled St store s0) in
    snd (fst r) = None /\
    fst (snd r) = h /\
    application.calls store currentlyPlaying h s0
    = application.call_IsPlayNextEnabled ::
        (if enabled then [application.call_NextAfter currentlyPlaying]
         else []) /\
    fst (fst r)
    = (if enabled
       then fst (@domain.NextAfter St store currentlyPlaying s1)
       else domain.NoVideo) /\
    snd (snd r)
    = (if enabled
       then snd (@domain.NextAfter St store currentlyPlaying s1)
       else s1).
Proof.
  intros St store raw h s0 N. cbv zeta.
  unfold application.calls, application.PlayNextUseCase, bind, ret,
    on_heap, on_store.
  rewrite !PlayerFacts.VideoIDFrom_not_empty by exact N.
  cbn [fst snd domain.IsPlayNextEnabled domain.NextAfter
       application.StoreSpy].
  destruct (@domain.IsPlayNextEnabled St store s0) as [[|] s1];
    cbn [fst snd negb app].
  - destruct (@domain.NextAfter St store raw s1) as [v s2]; cbn [fst snd app].
    repeat split.
  - repeat split.
Qed.

Lemma PlayNext_consults_the_store_witness :
  "video-1" <> "" /\
  application.calls (application.FixedStore true "video-2") "video-1" [] tt
  = [application.call_IsPlayNextEnabled; application.call_NextAfter "video-1"]
  /\
  fst (fst (application.PlayNextUseCase (application.FixedStore true "video-2")
              "video-1" ([], tt))) = "video-2".
Proof.
  assert (N : "video-1" <> "") by discriminate.
  destruct (PlayNext_consults_the_store unit
              (application.FixedStore true "video-2") "video-1" [] tt N)
    as [_ [_ [H3 [H4 _]]]].
  split; [exact N | split; [exact H3 | exact H4]].
Defined.

(** ** Builders and mothers *)

(** A space made by [Build] always has the owner "some-owner-id" and the
    name "a space name", whatever the builder holds: its [ownerID] and
    [name] fields are not read. Its id is the builder's, or "some-id"; its
    resources are the builder's, or none. So [DeleteSpace], asked by
    "some-owner-id" to delete such a space, never answers that the space is
    protected or not owned: it reaches the removal when the space has no
    resources and returns [errNonEmptySpace] otherwise. *)
Theorem Build_space_is_deletable_by_its_owner :
  forall b : BuilderMother.SpaceBuilder,
    ownerID (BuilderMother.Build b) = "some-owner-id" /\
    name (BuilderMother.Build b) = "a space name" /\
    id (BuilderMother.Build b)
    = match BuilderMother.b_id b with Some i => i | None => "some-id" end /\
    resources (BuilderMother.Build b)
    = match BuilderMother.b_resources b with Some r => r | None => [] end /\
    (forall (St : Type) (store : Store St) (key : string) (s0 : St),
        fetched store key s0 = Some (BuilderMother.Build b) ->
        fst (DeleteSpace store key "some-owner-id" s0)
        = match resources (BuilderMother.Build b) with
          | [] => removal store key s0
          | _ :: _ => errNonEmptySpace
          end).
Proof.
  intros [bi bo bn br].
  assert (Ho : ownerID (BuilderMother.Build
                          {| BuilderMother.b_id := bi;
                             BuilderMother.b_ownerID := bo;
                             BuilderMother.b_name := bn;
                             BuilderMother.b_resources := br |})
               = "some-owner-id")
    by (destruct bi, br; reflexivity).
  assert (Hn : name (BuilderMother.Build
                       {| BuilderMother.b_id := bi;
                          BuilderMother.b_ownerID := bo;
                          BuilderMother.b_name := bn;
                          BuilderMother.b_resources := br |})
               = "a space name")
    by (destruct bi, br; reflexivity).
  split; [exact Ho|]. split; [exact Hn|].
  split; [destruct bi, br; reflexivity|].
  split; [destruct bi, br; reflexivity|].
  intros St store key s0 E.
  rewrite DeleteSpace_returns, E.
  unfold isOwnedBy, isEmpty, isTheDefault, defaultSpaceName.
  rewrite Ho, Hn.
  destruct (resources _); reflexivity.
Qed.

Lemma Build_space_is_deletable_by_its_owner_witness :
  fetched (Stub (Some (BuilderMother.Build
                         (BuilderMother.WithID
                            {| BuilderMother.b_id := None;
                               BuilderMother.b_ownerID := None;
                               BuilderMother.b_name := Some "default";
                               BuilderMother.b_resources := None |}
                            "an-id"))) None) "an-id" tt
  = Some (BuilderMother.Build
            (BuilderMother.WithID
               {| BuilderMother.b_id := None;
                  BuilderMother.b_ownerID := None;
                  BuilderMother.b_name := Some "default";
                  BuilderMother.b_resources := None |}
               "an-id")) /\
  fst (DeleteSpace
         (Stub (Some (BuilderMother.Build
                        (BuilderMother.WithID
                           {| BuilderMother.b_id := None;
                              BuilderMother.b_ownerID := None;
                              BuilderMother.b_name := Some "default";
                              BuilderMother.b_resources := None |}
                           "an-id"))) None) "an-id" "some-owner-id" tt)
  = None.
Proof.
  split; [reflexivity|].
  exact (proj2 (proj2 (proj2 (proj2
           (Build_space_is_deletable_by_its_owner
              (BuilderMother.WithID
                 {| BuilderMother.b_id := None;
                    BuilderMother.b_ownerID := None;
                    BuilderMother.b_name := Some "default";
                    BuilderMother.b_resources := None |}
                 "an-id")))))
           unit
           (Stub (Some (BuilderMother.Build
                          (BuilderMother.WithID
                             {| BuilderMother.b_id := None;
                                BuilderMother.b_ownerID := None;
                                BuilderMother.b_name := Some "default";
                                BuilderMother.b_resources := None |}
                             "an-id"))) None)
           "an-id" tt eq_refl).
Defined.

Lemma tweak_keeps_the_owner (cs : list BuilderMother.option_call) (s : Space) :
  ownerID (BuilderMother.tweak s (map BuilderMother.eval_option cs))
  = ownerID s.
Proof.
  unfold BuilderMother.tweak. revert s.
  induction cs as [|c cs IH]; intros s; [reflexivity|].
  cbn [map fold_left]. rewrite IH. destruct c; reflexivity.
Qed.

(** [SpaceOwnedBy] does not use its [userID]: with any list of the four
    options the space it returns is owned by "some-owner-id", and is the
    same for every [userID]. Asked by any other user to delete the space
    made for that user, [DeleteSpace] returns [errNotAnOwnedSpace]. *)
Theorem SpaceOwnedBy_ignores_the_user :
  forall (userID : string) (cs : list BuilderMother.option_call),
    ownerID (BuilderMother.SpaceOwnedBy userID
               (map BuilderMother.eval_option cs)) = "some-owner-id" /\
    (forall other : string,
        BuilderMother.SpaceOwnedBy other (map BuilderMother.eval_option cs)
        = BuilderMother.SpaceOwnedBy userID
            (map BuilderMother.eval_option cs)) /\
    (forall (St : Type) (store : Store St) (key : string) (s0 : St),
        userID <> "some-owner-id" ->
        fetched store key s0
        = Some (BuilderMother.SpaceOwnedBy userID
                  (map BuilderMother.eval_option cs)) ->
        fst (DeleteSpace store key userID s0) = errNotAnOwnedSpace).
Proof.
  intros userID cs.
  assert (Ho : ownerID (BuilderMother.SpaceOwnedBy userID
                          (map BuilderMother.eval_option cs))
               = "some-owner-id").
  { unfold BuilderMother.SpaceOwnedBy. rewrite tweak_keeps_the_owner.
    reflexivity. }
  split; [exact Ho|]. split; [reflexivity|].
  intros St store key s0 N E.
  rewrite DeleteSpace_returns, E.
  assert (F : isOwnedBy (BuilderMother.SpaceOwnedBy userID
                           (map BuilderMother.eval_option cs)) userID
              = false).
  { apply isOwnedBy_false. rewrite Ho. congruence. }
  rewrite F. reflexivity.
Qed.

Lemma SpaceOwnedBy_ignores_the_user_witness :
  "owner-id" <> "some-owner-id" /\
  fetched (Stub (Some (BuilderMother.SpaceOwnedBy "owner-id"
                         (map BuilderMother.eval_option
                              [BuilderMother.call_FilledWith []]))) None)
          "some-id" tt
  = Some (BuilderMother.SpaceOwnedBy "owner-id"
            (map BuilderMother.eval_option
                 [BuilderMother.call_FilledWith []])) /\
  fst (DeleteSpace
         (Stub (Some (BuilderMother.SpaceOwnedBy "owner-id"
                        (map BuilderMother.eval_option
                             [BuilderMother.call_FilledWith []]))) None)
         "some-id" "owner-id" tt)
  = errNotAnOwnedSpace.
Proof.
  assert (N : "owner-id" <> "some-owner-id") by discriminate.
  split; [exact N | split; [reflexivity|]].
  exact (proj2 (proj2 (SpaceOwnedBy_ignores_the_user "owner-id"
                         [BuilderMother.call_FilledWith []]))
           unit
           (Stub (Some (BuilderMother.SpaceOwnedBy "owner-id"
                          (map BuilderMother.eval_option
                               [BuilderMother.call_FilledWith []]))) None)
           "some-id" tt N eq_refl).
Defined.
